(** * VeriSource: the citation interception pipeline and the URL classifier

    A shallow embedding of [extension/inject.js] (fetch wrapper, stream
    decoder, payload miner), of the content script (message listener,
    [detectServiceFromUrl]) and of the popup's copy of [detectServiceFromUrl],
    followed by the properties proved about them.

    JavaScript strings are sequences of UTF-16 code units, byte chunks are
    lists of [Byte.byte], exceptions are an explicit [completion] type.
    What the browser provides and the repository does not define
    ([JSON.parse], [new URL], [toLowerCase], [toUpperCase]) is a field of the
    class [Platform]: every theorem holds for any implementation of them. *)

From Stdlib Require Import List ZArith NArith Bool Lia String Ascii SpecFloat.
From Stdlib Require Import Strings.Byte.
From Equations Require Import Equations.
Import ListNotations.

Open Scope Z_scope.

(* ===================================================================== *)
(** ** JavaScript strings *)
(* ===================================================================== *)

(** A string is its sequence of UTF-16 code units. *)
Definition jsstring := list N.

(** A source literal (ASCII only) as a [jsstring]. *)
Definition lit (s : string) : jsstring :=
  List.map N_of_ascii (list_ascii_of_string s).

Fixpoint streq (a b : jsstring) : bool :=
  match a, b with
  | [], [] => true
  | x :: a', y :: b' => N.eqb x y && streq a' b'
  | _, _ => false
  end.

(** [s.startsWith(p)] *)
Fixpoint startsWith (s p : jsstring) {struct p} : bool :=
  match p, s with
  | [], _ => true
  | c :: p', d :: s' => N.eqb c d && startsWith s' p'
  | _ :: _, [] => false
  end.

(** [s.includes(p)] *)
Fixpoint includes (s p : jsstring) : bool :=
  startsWith s p ||
  match s with
  | [] => false
  | _ :: s' => includes s' p
  end.

(** [s.indexOf(c)] for a one-unit search string: the first position, or -1. *)
Fixpoint indexOf_from (s : jsstring) (c : N) (i : Z) : Z :=
  match s with
  | [] => -1
  | x :: s' => if N.eqb x c then i else indexOf_from s' c (i + 1)
  end.

Definition indexOf (s : jsstring) (c : N) : Z := indexOf_from s c 0.

(** The relative index of [slice]: negative counts from the end, then clamp. *)
Definition rel_index (len k : Z) : Z :=
  if k <? 0 then Z.max (len + k) 0 else Z.min k len.

(** [s.slice(start, end)] *)
Definition slice (s : jsstring) (start stop : Z) : jsstring :=
  let len := Z.of_nat (List.length s) in
  let from := rel_index len start in
  let to := rel_index len stop in
  firstn (Z.to_nat (to - from)) (skipn (Z.to_nat from) s).

(** [s.slice(start)] *)
Definition slice_from (s : jsstring) (start : Z) : jsstring :=
  slice s start (Z.of_nat (List.length s)).

(** ECMAScript WhiteSpace and LineTerminator code units, stripped by [trim]. *)
Definition is_white_space (c : N) : bool :=
  ((9 <=? c) && (c <=? 13) || (c =? 32) || (c =? 160) || (c =? 5760)
   || (8192 <=? c) && (c <=? 8202) || (c =? 8232) || (c =? 8233)
   || (c =? 8239) || (c =? 8287) || (c =? 12288) || (c =? 65279))%N.

Fixpoint trimStart (s : jsstring) : jsstring :=
  match s with
  | c :: s' => if is_white_space c then trimStart s' else s
  | [] => []
  end.

Definition trimEnd (s : jsstring) : jsstring := rev (trimStart (rev s)).

(** [s.trim()] *)
Definition trim (s : jsstring) : jsstring := trimEnd (trimStart s).

Definition NL : N := 10%N.

(** [s] contains [p]. *)
Definition contains (s p : jsstring) : Prop := exists pre post, s = pre ++ p ++ post.

(** The newline-terminated lines of a text, and what follows the last
    newline. *)
Fixpoint split_lines (text : jsstring) : list jsstring * jsstring :=
  match text with
  | [] => ([], [])
  | c :: rest =>
      let '(ls, tail) := split_lines rest in
      if (c =? NL)%N then ([] :: ls, tail)
      else
        match ls with
        | [] => ([], c :: tail)
        | l :: ls' => ((c :: l) :: ls', tail)
        end
  end.

(* ===================================================================== *)
(** ** Exceptions *)
(* ===================================================================== *)

Inductive js_error : Type :=
| SyntaxError
| TypeError
| OtherError (tag : jsstring).

(** The outcome of an evaluation that may throw (or of a promise that may
    reject). *)
Inductive completion (A : Type) : Type :=
| Normal (a : A)
| Throw (e : js_error).
Arguments Normal {A} a.
Arguments Throw {A} e.

Definition bind {A B} (c : completion A) (k : A -> completion B) : completion B :=
  match c with
  | Normal a => k a
  | Throw e => Throw e
  end.

(** [try { body } catch (_) { handler }] *)
Definition try_catch {A} (body : completion A) (handler : js_error -> completion A)
  : completion A :=
  match body with
  | Normal a => Normal a
  | Throw e => handler e
  end.

(* ===================================================================== *)
(** ** JSON values *)
(* ===================================================================== *)

(** The values [JSON.parse] builds. A number is an IEEE binary64
    ([spec_float]); an object carries its own properties in [Object.keys]
    order, each key once. *)
Unset Elimination Schemes.
Inductive value : Type :=
| JNull
| JBool (b : bool)
| JNumber (x : spec_float)
| JString (s : jsstring)
| JArray (elems : list value)
| JObject (props : list (jsstring * value)).
Set Elimination Schemes.

(** ToBoolean, as used by [!x], [x && y] and [x || y]. *)
Definition truthy (v : value) : bool :=
  match v with
  | JNull => false
  | JBool b => b
  | JNumber (S754_zero _) => false
  | JNumber S754_nan => false
  | JNumber _ => true
  | JString s => match s with [] => false | _ => true end
  | JArray _ => true
  | JObject _ => true
  end.

Fixpoint lookup (key : jsstring) (props : list (jsstring * value)) : option value :=
  match props with
  | [] => None
  | (k, v) :: rest => if streq k key then Some v else lookup key rest
  end.

(** [v.key] for the keys the miner reads ([type], [sources], [items], [url],
    [title], [attribution]): only an object can carry them; [None] is
    [undefined]. *)
Definition get (v : value) (key : jsstring) : option value :=
  match v with
  | JObject props => lookup key props
  | _ => None
  end.

(* ===================================================================== *)
(** ** Payload miner ([extractSourcesFromPayload]) *)
(* ===================================================================== *)

(** The record pushed by the miner. [title] and [attribution] hold whatever
    truthy value the payload had there, else the empty string. *)
Record Citation : Type := mkCitation {
  url : jsstring;
  title : value;
  attribution : value
}.

(** [x || ''] for a property that may be [undefined]. *)
Definition or_empty (o : option value) : value :=
  match o with
  | Some v => if truthy v then v else JString []
  | None => JString []
  end.

(** [s && typeof s.url === 'string'], and the record built when it holds. *)
Definition source_entry (s : value) : option Citation :=
  if truthy s then
    match get s (lit "url") with
    | Some (JString u) =>
        Some (mkCitation u (or_empty (get s (lit "title")))
                           (or_empty (get s (lit "attribution"))))
    | _ => None
    end
  else None.

(** [for (const s of arr) if (...) found.push({...})] *)
Fixpoint push_sources (arr : list value) (found : list Citation) : list Citation :=
  match arr with
  | [] => found
  | s :: rest =>
      push_sources rest
        (match source_entry s with
         | Some c => found ++ [c]
         | None => found
         end)
  end.

(** [obj.type === 'sources_footnote' && Array.isArray(obj.sources)]: the
    [sources] array when the test holds. *)
Definition footnote_sources (props : list (jsstring * value)) : option (list value) :=
  match lookup (lit "type") props with
  | Some (JString t) =>
      if streq t (lit "sources_footnote") then
        match lookup (lit "sources") props with
        | Some (JArray srcs) => Some srcs
        | _ => None
        end
      else None
  | _ => None
  end.

(** [Array.isArray(obj.items)]: the [items] array when the test holds. *)
Definition items_array (props : list (jsstring * value)) : option (list value) :=
  match lookup (lit "items") props with
  | Some (JArray items) => Some items
  | _ => None
  end.

Fixpoint extractSourcesFromPayload (obj : value) (found : list Citation)
  {struct obj} : list Citation :=
  match obj with
  | JArray elems =>
      (fix each (l : list value) (found : list Citation) : list Citation :=
         match l with
         | [] => found
         | x :: rest => each rest (extractSourcesFromPayload x found)
         end) elems found
  | JObject props =>
      match footnote_sources props with
      | Some srcs => push_sources srcs found
      | None =>
          let found1 :=
            match items_array props with
            | Some items => push_sources items found
            | None => found
            end in
          (fix keys (ps : list (jsstring * value)) (found : list Citation)
             : list Citation :=
             match ps with
             | [] => found
             | (_, v) :: rest => keys rest (extractSourcesFromPayload v found)
             end) props found1
      end
  | JNull | JBool _ | JNumber _ | JString _ => found
  end.

(** The array loop of the miner, as a function of its own. *)
Definition mine_each (l : list value) (found : list Citation) : list Citation :=
  List.fold_left (fun acc x => extractSourcesFromPayload x acc) l found.

(** The key loop of the miner, as a function of its own. *)
Definition mine_keys (ps : list (jsstring * value)) (found : list Citation)
  : list Citation :=
  List.fold_left (fun acc kv => extractSourcesFromPayload (snd kv) acc) ps found.

(* ===================================================================== *)
(** ** [TextDecoder] (UTF-8, replacement mode, [stream: true]) *)
(* ===================================================================== *)

(** The state of the UTF-8 decoder of the Encoding standard. *)
Record utf8_state : Type := mkUtf8 {
  code_point : N;
  bytes_seen : N;
  bytes_needed : N;
  lower_boundary : N;
  upper_boundary : N
}.

Definition utf8_reset : utf8_state := mkUtf8 0 0 0 128 191.

Definition REPLACEMENT : N := 65533%N.

(** The handler on a byte when no continuation byte is expected. *)
Definition utf8_lead (b : N) : utf8_state * list N :=
  (if b <=? 127 then (utf8_reset, [b])
   else if (194 <=? b) && (b <=? 223) then
     (mkUtf8 (N.land b 31) 0 1 128 191, [])
   else if (224 <=? b) && (b <=? 239) then
     (mkUtf8 (N.land b 15) 0 2
             (if b =? 224 then 160 else 128)
             (if b =? 237 then 159 else 191), [])
   else if (240 <=? b) && (b <=? 244) then
     (mkUtf8 (N.land b 7) 0 3
             (if b =? 240 then 144 else 128)
             (if b =? 244 then 143 else 191), [])
   else (utf8_reset, [REPLACEMENT]))%N.

(** One byte through the handler; the code points it emits. A byte that
    breaks a sequence is an error (U+FFFD) and is then handled again from
    the reset state. *)
Definition utf8_handler (st : utf8_state) (b : N) : utf8_state * list N :=
  (if bytes_needed st =? 0 then utf8_lead b
   else if negb ((lower_boundary st <=? b) && (b <=? upper_boundary st)) then
     let '(st', out) := utf8_lead b in (st', REPLACEMENT :: out)
   else
     let cp := N.lor (N.shiftl (code_point st) 6) (N.land b 63) in
     let seen := bytes_seen st + 1 in
     if seen =? bytes_needed st then (utf8_reset, [cp])
     else (mkUtf8 cp seen (bytes_needed st) 128 191, []))%N.

(** A code point as UTF-16 code units. *)
Definition utf16_units (cp : N) : jsstring :=
  (if cp <? 65536 then [cp]
   else [55296 + N.shiftr (cp - 65536) 10; 56320 + N.land (cp - 65536) 1023])%N.

(** A [TextDecoder] between two [decode(chunk, {stream: true})] calls. *)
Record TextDecoder : Type := mkDecoder {
  utf8 : utf8_state;
  bom_seen : bool
}.

(** [new TextDecoder()] *)
Definition TextDecoder_new : TextDecoder := mkDecoder utf8_reset false.

(** Serialising the emitted code points: the first one is dropped when it is
    the byte order mark. *)
Fixpoint serialize (seen : bool) (cps : list N) : bool * jsstring :=
  match cps with
  | [] => (seen, [])
  | cp :: rest =>
      let '(seen', out) := serialize true rest in
      if negb seen && (cp =? 65279)%N then (seen', out)
      else (seen', utf16_units cp ++ out)
  end.

Definition decode_byte (d : TextDecoder) (b : byte) : TextDecoder * jsstring :=
  let '(st, cps) := utf8_handler (utf8 d) (Byte.to_N b) in
  let '(seen, out) := serialize (bom_seen d) cps in
  (mkDecoder st seen, out).

(** [decoder.decode(chunk, { stream: true })] *)
Fixpoint decode (d : TextDecoder) (chunk : list byte) : TextDecoder * jsstring :=
  match chunk with
  | [] => (d, [])
  | b :: rest =>
      let '(d1, out1) := decode_byte d b in
      let '(d2, out2) := decode d1 rest in
      (d2, out1 ++ out2)
  end.

(* ===================================================================== *)
(** ** What the browser provides *)
(* ===================================================================== *)

Class Platform : Type := {
  (** [JSON.parse(text)]: the value, or a thrown [SyntaxError]. *)
  JSON_parse : jsstring -> completion value;
  (** [new URL(url).hostname]: the host, or a thrown [TypeError]. *)
  URL_hostname : jsstring -> completion jsstring;
  (** [s.toLowerCase()] *)
  toLowerCase : jsstring -> jsstring;
  (** [s.toUpperCase()] *)
  toUpperCase : jsstring -> jsstring
}.

(* ===================================================================== *)
(** ** Index facts used by the termination of the line loop *)
(* ===================================================================== *)

Lemma indexOf_from_range (s : jsstring) (c : N) (i : Z) :
  indexOf_from s c i = -1 \/
  i <= indexOf_from s c i < i + Z.of_nat (List.length s).
Proof.
  revert i. induction s as [|x s IH]; intros i; simpl.
  - now left.
  - destruct (N.eqb x c).
    + right. lia.
    + destruct (IH (i + 1)) as [H|H]; [now left | right; lia].
Qed.

Lemma indexOf_range (s : jsstring) (c : N) :
  indexOf s c = -1 \/ 0 <= indexOf s c < Z.of_nat (List.length s).
Proof. apply (indexOf_from_range s c 0). Qed.

Lemma slice_from_skipn (s : jsstring) (k : Z) :
  0 <= k -> slice_from s k = skipn (Z.to_nat k) s.
Proof.
  intros Hk. unfold slice_from, slice, rel_index.
  destruct (Z.ltb_spec k 0); [lia|].
  destruct (Z.ltb_spec (Z.of_nat (List.length s)) 0); [lia|].
  rewrite Z.min_id.
  destruct (Z.min_spec k (Z.of_nat (List.length s))) as [[Hlt ->]|[Hge ->]].
  - apply firstn_all2. rewrite length_skipn. lia.
  - rewrite Z.sub_diag. simpl. symmetry. apply skipn_all2. lia.
Qed.

Lemma slice_0_firstn (s : jsstring) (k : Z) :
  0 <= k -> slice s 0 k = firstn (Z.to_nat k) s.
Proof.
  intros Hk. unfold slice, rel_index. simpl.
  destruct (Z.ltb_spec k 0); [lia|].
  rewrite (Z.min_l 0) by lia. simpl. rewrite Z.sub_0_r.
  destruct (Z.min_spec k (Z.of_nat (List.length s))) as [[Hlt ->]|[Hge ->]].
  - reflexivity.
  - rewrite Nat2Z.id, firstn_all. symmetry. apply firstn_all2. lia.
Qed.

Lemma slice_after_index_shorter (s : jsstring) (idx : Z) :
  idx = indexOf s NL -> (idx =? -1) = false ->
  (List.length (slice_from s (idx + 1)) < List.length s)%nat.
Proof.
  intros -> Hne. apply Z.eqb_neq in Hne.
  destruct (indexOf_range s NL) as [H|H]; [contradiction|].
  rewrite slice_from_skipn by lia. rewrite length_skipn. lia.
Qed.

(* ===================================================================== *)
(** ** Streams and responses *)
(* ===================================================================== *)

(** How a readable stream ends: closed ([done: true]) or errored (the read
    rejects). *)
Inductive stream_end : Type :=
| Closed
| Errored (e : js_error).

(** A response body: the chunks its reader yields, then how it ends. *)
Record Stream : Type := mkStream {
  chunks : list (list byte);
  ending : stream_end
}.

(** A stream object of one call of the wrapper: the body of the response the
    original [fetch] resolved with, or a branch of a [tee()]. *)
Inductive StreamObject : Type :=
| OriginalBody
| Branch1 (source : StreamObject)
| Branch2 (source : StreamObject).

Fixpoint same_object (a b : StreamObject) : bool :=
  match a, b with
  | OriginalBody, OriginalBody => true
  | Branch1 a', Branch1 b' => same_object a' b'
  | Branch2 a', Branch2 b' => same_object a' b'
  | _, _ => false
  end.

(** The stream objects that are locked: a reader was taken from them, or
    they were teed. *)
Definition Locks := list StreamObject.

Definition is_locked (o : StreamObject) (locked : Locks) : bool :=
  existsb (same_object o) locked.

(** [stream.tee()]: a [TypeError] on a locked stream; else the stream is
    locked and two new, unlocked branches carry its chunks. *)
Definition tee (o : StreamObject) (locked : Locks)
  : completion (StreamObject * StreamObject * Locks) :=
  if is_locked o locked then Throw TypeError
  else Normal (Branch1 o, Branch2 o, o :: locked).

(** [stream.getReader()]: a [TypeError] on a locked stream; else the stream
    is locked to the new reader. *)
Definition getReader (o : StreamObject) (locked : Locks) : completion Locks :=
  if is_locked o locked then Throw TypeError else Normal (o :: locked).

(** What a reader of a stream object yields, [original] being what the
    original body yields: a branch yields what its source yields. *)
Fixpoint object_stream (original : Stream) (o : StreamObject) : Stream :=
  match o with
  | OriginalBody => original
  | Branch1 source => object_stream original source
  | Branch2 source => object_stream original source
  end.

(** All the bytes a consumer of the stream reads. *)
Definition body_bytes (s : Stream) : list byte := List.concat (chunks s).

Inductive ResponseType : Type := RtBasic | RtCors | RtDefault | RtError | RtOpaque.

(** The header list as the [Headers] interface exposes it: names lower-cased,
    the values of one name combined. Copying a [Headers] object keeps it. *)
Definition Headers := list (jsstring * jsstring).

Record Response : Type := mkResponse {
  status : Z;
  statusText : jsstring;
  headers : Headers;
  body : option Stream;
  resp_url : jsstring;
  redirected : bool;
  resp_type : ResponseType
}.

(** [response.ok] *)
Definition ok (r : Response) : bool := (200 <=? status r) && (status r <=? 299).

(** [response.body] is not [null]. *)
Definition has_body (r : Response) : bool :=
  match body r with Some _ => true | None => false end.

(** [headers.get(name)] for a lower-case [name]; [None] is [null]. *)
Fixpoint Headers_get (h : Headers) (name : jsstring) : option jsstring :=
  match h with
  | [] => None
  | (k, v) :: rest => if streq k name then Some v else Headers_get rest name
  end.

(** The statuses whose response has no body. *)
Definition null_body_status (s : Z) : bool :=
  (s =? 101) || (s =? 103) || (s =? 204) || (s =? 205) || (s =? 304).

(** [new Response(body, { status, statusText, headers })]: a [RangeError]
    outside 200..599, a [TypeError] for a body with a null-body status or a
    body that is locked. *)
Definition Response_new (b : option Stream) (b_locked : bool) (st : Z)
  (txt : jsstring) (h : Headers) : completion Response :=
  if negb ((200 <=? st) && (st <=? 599)) then Throw (OtherError (lit "RangeError"))
  else
    match b with
    | Some _ =>
        if null_body_status st || b_locked then Throw TypeError
        else Normal (mkResponse st txt h b [] false RtDefault)
    | None => Normal (mkResponse st txt h b [] false RtDefault)
    end.

(** What [fetch] hands out: a response with a null-body status has no body. *)
Definition Response_wf (r : Response) : Prop :=
  null_body_status (status r) = true -> body r = None.

(** The first parameter of [fetch]: a string, a [Request] or a [URL]. *)
Record Request : Type := mkRequest {
  req_url : jsstring;
  req_method : jsstring
}.

Inductive FetchInput : Type :=
| InputString (s : jsstring)
| InputRequest (r : Request)
| InputURL (href : jsstring).

(** The second parameter of [fetch], as far as the wrapper reads it:
    [None] is an absent [method]. *)
Record RequestInit : Type := mkInit {
  init_method : option jsstring
}.

(* ===================================================================== *)
(** ** extension/inject.js *)
(* ===================================================================== *)

Module Inject.
Section WithPlatform.
Context {P : Platform}.

Definition CONVERSATION_PATH : jsstring := lit "/backend-api/".
Definition CONVERSATION_SUBPATH : jsstring := lit "conversation".
Definition CITATIONS_EVENT : jsstring := lit "AICredibilityCitations".

(** [getRequestUrl]: the string itself, the [url] of a [Request]; a [URL]
    object has no [url] property and gives the empty string. *)
Definition getRequestUrl (input : FetchInput) (options : option RequestInit) : jsstring :=
  match input with
  | InputString s => s
  | InputRequest r => req_url r
  | InputURL _ => []
  end.

(** [getRequestMethod]: [input.method || 'GET'] for a [Request], else
    [String(options.method).toUpperCase()] when [options.method] is truthy,
    else ['GET']. *)
Definition getRequestMethod (input : FetchInput) (options : option RequestInit) : jsstring :=
  match input with
  | InputRequest r =>
      match req_method r with
      | [] => lit "GET"
      | m => m
      end
  | _ =>
      match options with
      | Some o =>
          match init_method o with
          | Some (c :: m) => toUpperCase (c :: m)
          | _ => lit "GET"
          end
      | None => lit "GET"
      end
  end.

(** The body of [processDataLine]: the new contents of [collected]. *)
Definition processDataLine (line : jsstring) (collected : list Citation)
  : completion (list Citation) :=
  let trimmed := trim line in
  match trimmed with
  | [] => Normal collected
  | _ =>
      if streq trimmed (lit "[DONE]") then Normal collected
      else
        try_catch
          (bind (JSON_parse trimmed) (fun data =>
             Normal (extractSourcesFromPayload data collected)))
          (fun _ => Normal collected)
  end.

(** The locals of [consumeStream]; [lines] is not in the source: it records,
    in order, each line the loop of [processBuffer] extracts. *)
Record Observation : Type := mkObs {
  buffer : jsstring;
  collected : list Citation;
  lines : list jsstring
}.

(** Matching on a value while keeping the equation that defines it. *)
Definition inspect {A : Type} (x : A) : { y : A | x = y } := exist _ x eq_refl.

(** The body of the loop of [processBuffer] on an extracted line. *)
Definition handle_line (line : jsstring) (collected : list Citation)
  : completion (list Citation) :=
  if startsWith line (lit "data:") then
    let payload := trim (slice_from line 5) in
    processDataLine payload collected
  else Normal collected.

(** [processBuffer]: while the buffer holds a newline, cut the line before it
    off the buffer and hand it to the loop body. *)
Equations? processBuffer (st : Observation) : completion Observation
  by wf (List.length (buffer st)) lt :=
  processBuffer st with inspect (indexOf (buffer st) NL) := {
    | exist _ idx Hidx with inspect (idx =? -1) := {
      | exist _ true _ => Normal st
      | exist _ false Hne
          with handle_line (slice (buffer st) 0 idx) (collected st) := {
        | Throw e => Throw e
        | Normal c =>
            processBuffer
              (mkObs (slice_from (buffer st) (idx + 1))
                     c
                     (lines st ++ [slice (buffer st) 0 idx]))
        }
      }
    }.
Proof.
  simpl. apply slice_after_index_shorter; auto.
Qed.

(** The [seen] set and the filter of the [done] branch. *)
Fixpoint unique_by_url (l : list Citation) (seen : list jsstring) : list Citation :=
  match l with
  | [] => []
  | s :: rest =>
      let key := url s in
      if existsb (streq key) seen then unique_by_url rest seen
      else s :: unique_by_url rest (key :: seen)
  end.

(** The object literal [{ url, title, attribution }] pushed by the miner. *)
Definition citation_object (c : Citation) : value :=
  JObject [(lit "url", JString (url c));
           (lit "title", title c);
           (lit "attribution", attribution c)].

(** [{ type: CITATIONS_EVENT, sources: unique }] *)
Definition citations_message (unique : list Citation) : value :=
  JObject [(lit "type", JString CITATIONS_EVENT);
           (lit "sources", JArray (List.map citation_object unique))].

(** The [done] branch of [read], after its two [processBuffer] calls: the
    message given to [window.postMessage], if any. *)
Definition dispatch (st : Observation) : option value :=
  let unique := unique_by_url (collected st) [] in
  if (0 <? Z.of_nat (List.length unique)) then Some (citations_message unique)
  else None.

(** [read], along the results of [reader.read()]: one [{value, done: false}]
    per chunk, then [{done: true}] or a rejection. The result is the final
    state with the posted message, or the rejection of the promise. *)
Fixpoint read (rest : list (list byte)) (fin : stream_end)
  (decoder : TextDecoder) (st : Observation)
  : completion (Observation * option value) :=
  match rest with
  | chunk :: rest' =>
      let '(decoder', text) := decode decoder chunk in
      let st1 := mkObs (buffer st ++ text) (collected st) (lines st) in
      bind (processBuffer st1) (fun st2 => read rest' fin decoder' st2)
  | [] =>
      match fin with
      | Errored e => Throw e
      | Closed =>
          bind (processBuffer st) (fun st1 =>
          bind (processBuffer st1) (fun st2 =>
          Normal (st2, dispatch st2)))
      end
  end.

(** [consumeStream]: [buffer = ''], [collected = []], then [read()]. *)
Definition consumeStream (stream : Stream) (decoder : TextDecoder)
  : completion (Observation * option value) :=
  read (chunks stream) (ending stream) decoder (mkObs [] [] []).

(** What one call of the wrapper does: the promise handed to the caller, the
    stream given to [consumeStream], if any, the stream object that is the
    body of the response handed to the caller, if any, and the stream
    objects locked on the way. *)
Record Intercepted : Type := mkIntercepted {
  returned : completion Response;
  shadow : option Stream;
  page_body : option StreamObject;
  locks : Locks
}.

(** The result of the original call handed on as it is: the body, if any,
    is the original body, and nothing was locked. *)
Definition passed_through (result : completion Response) : Intercepted :=
  mkIntercepted result None
    (match result with
     | Normal response => if has_body response then Some OriginalBody else None
     | Throw _ => None
     end)
    [].

(** [url && url.includes(...) && url.includes(...) && method === 'POST'] *)
Definition isConversation (input : FetchInput) (init : option RequestInit) : bool :=
  let url := getRequestUrl input init in
  let method := getRequestMethod input init in
  match url with
  | [] => false
  | _ =>
      includes url CONVERSATION_PATH && includes url CONVERSATION_SUBPATH
      && streq method (lit "POST")
  end.

Section Wrapper.
Variable originalFetch : FetchInput -> option RequestInit -> completion Response.

(** The function installed as [window.fetch]. *)
Definition fetch (input : FetchInput) (init : option RequestInit) : Intercepted :=
  if negb (isConversation input init) then
    passed_through (originalFetch input init)
  else
    match originalFetch input init with
    | Throw e => passed_through (Throw e)
    | Normal response =>
        if negb (ok response) || negb (has_body response)
        then passed_through (Normal response)
        else
          let contentType :=
            match Headers_get (headers response) (lit "content-type") with
            | Some (c :: v) => c :: v
            | _ => []
            end in
          if negb (includes contentType (lit "text/event-stream"))
             && negb (includes contentType (lit "text/plain"))
          then passed_through (Normal response)
          else
            match body response with
            | Some b =>
                (* [response.body.tee()] *)
                match tee OriginalBody [] with
                | Throw e => mkIntercepted (Throw e) None None []
                | Normal (stream1, stream2, locked) =>
                    (* [consumeStream(stream2, decoder)]: [stream.getReader()] *)
                    match getReader stream2 locked with
                    | Throw e => mkIntercepted (Throw e) None None locked
                    | Normal locked' =>
                        mkIntercepted
                          (Response_new (Some (object_stream b stream1))
                                        (is_locked stream1 locked')
                                        (status response) (statusText response)
                                        (headers response))
                          (Some (object_stream b stream2))
                          (Some stream1)
                          locked'
                    end
                end
            | None => passed_through (Normal response)
            end
    end.

(** What the caller reads from the body of the response it was handed: the
    stream, [None] when there is no body, a [TypeError] when the body is
    locked. *)
Definition page_reads (r : Intercepted) : completion (option Stream) :=
  bind (returned r) (fun response =>
    match page_body r with
    | Some o => if is_locked o (locks r) then Throw TypeError
                else Normal (body response)
    | None => Normal None
    end).

(** The message the shadow consumer of a call posts, if any. *)
Definition notification (r : Intercepted) : option value :=
  match shadow r with
  | Some stream2 =>
      match consumeStream stream2 TextDecoder_new with
      | Normal (_, posted) => posted
      | Throw _ => None
      end
  | None => None
  end.

End Wrapper.
End WithPlatform.
End Inject.

(* ===================================================================== *)
(** ** The content script *)
(* ===================================================================== *)

(** A [message] event as the listener reads it. *)
Record MessageEvent : Type := mkEvent {
  source_is_window : bool;   (* [event.source === window] *)
  data : value               (* [event.data] *)
}.

Module ContentScript.
Section WithPlatform.
Context {P : Platform}.

(** The listener on [message]: the new contents of [lastCitations]. *)
Definition on_message (event : MessageEvent) (lastCitations : list value) : list value :=
  if negb (source_is_window event) || negb (truthy (data event)) then lastCitations
  else
    match get (data event) (lit "type"), get (data event) (lit "sources") with
    | Some (JString t), Some (JArray sources) =>
        if streq t (lit "AICredibilityCitations") then sources else lastCitations
    | _, _ => lastCitations
    end.

(** The answer to [GET_CITATIONS]: [{ sources: lastCitations }]. *)
Definition GET_CITATIONS (lastCitations : list value) : list value := lastCitations.

(** [lastCitations] when the script starts. *)
Definition lastCitations_initial : list value := [].

(** [detectServiceFromUrl]: the service key, or [None] for [null]; the
    argument is [None] when the caller passes [undefined]. *)
Definition detectServiceFromUrl (url : option jsstring) : completion (option jsstring) :=
  match url with
  | None | Some [] => Normal None
  | Some (c :: u) =>
      (* a [Some] is a [return] inside [try]; [None] leaves the [try], or
         the [catch], for the final [return null] *)
      try_catch
        (bind (URL_hostname (c :: u)) (fun hostname =>
           let host := toLowerCase hostname in
           if streq host (lit "chatgpt.com") || streq host (lit "chat.openai.com")
           then Normal (Some (lit "chatgpt"))
           else if streq host (lit "claude.ai") then Normal (Some (lit "claude"))
           else if streq host (lit "gemini.google.com") then Normal (Some (lit "gemini"))
           else if streq host (lit "perplexity.ai") then Normal (Some (lit "perplexity"))
           else Normal None))
        (fun _ => Normal None)
  end.

(** [service || 'unknown'], the [service] field of the answer to
    [GET_SERVICE]. *)
Definition GET_SERVICE (pageUrl : option jsstring) : completion jsstring :=
  bind (detectServiceFromUrl pageUrl) (fun service =>
    match service with
    | Some (c :: k) => Normal (c :: k)
    | _ => Normal (lit "unknown")
    end).

End WithPlatform.
End ContentScript.

(* ===================================================================== *)
(** ** The popup *)
(* ===================================================================== *)

Module Popup.
Section WithPlatform.
Context {P : Platform}.

(** [detectServiceFromUrl]: the service key, or [None] for [null]; the
    argument is [None] when the caller passes [undefined]. *)
Definition detectServiceFromUrl (url : option jsstring) : completion (option jsstring) :=
  match url with
  | None | Some [] => Normal None
  | Some (c :: u) =>
      (* a [Some] is a [return] inside [try]; [None] leaves the [try], or
         the [catch], for the final [return null] *)
      try_catch
        (bind (URL_hostname (c :: u)) (fun hostname =>
           let host := toLowerCase hostname in
           if streq host (lit "chatgpt.com") || streq host (lit "chat.openai.com")
           then Normal (Some (lit "chatgpt"))
           else if streq host (lit "claude.ai") then Normal (Some (lit "claude"))
           else if streq host (lit "gemini.google.com") then Normal (Some (lit "gemini"))
           else if streq host (lit "perplexity.ai") then Normal (Some (lit "perplexity"))
           else Normal None))
        (fun _ => Normal None)
  end.

(** [detectServiceFromUrl(tab.url) || 'unknown'], the key given to
    [setService]. *)
Definition service_key (tabUrl : option jsstring) : completion jsstring :=
  bind (detectServiceFromUrl tabUrl) (fun service =>
    match service with
    | Some (c :: k) => Normal (c :: k)
    | _ => Normal (lit "unknown")
    end).

End WithPlatform.
End Popup.

(* ===================================================================== *)
(** ** The page: wrapper, shadow consumer and sink together *)
(* ===================================================================== *)

Section Page.
Context {P : Platform}.
Variable originalFetch : FetchInput -> option RequestInit -> completion Response.

(** [window.postMessage(msg, '*')] from the page as the listener sees it. *)
Definition posted_event (msg : value) : MessageEvent := mkEvent true msg.

(** The sink after the shadow consumer of a stream has settled. *)
Definition sink_after_stream (stream : Stream) (lastCitations : list value) : list value :=
  match Inject.consumeStream stream TextDecoder_new with
  | Normal (_, Some msg) => ContentScript.on_message (posted_event msg) lastCitations
  | Normal (_, None) => lastCitations
  | Throw _ => lastCitations
  end.

(** One call of the wrapped [fetch]: what the caller gets and the sink once
    the shadow consumer, if any, has settled. *)
Definition page_fetch (input : FetchInput) (init : option RequestInit)
  (lastCitations : list value) : completion Response * list value :=
  let r := Inject.fetch originalFetch input init in
  (Inject.returned r,
   match Inject.shadow r with
   | Some stream2 => sink_after_stream stream2 lastCitations
   | None => lastCitations
   end).

End Page.

(* ===================================================================== *)
(** ** Definitions used by the statements *)
(* ===================================================================== *)

Section StatementDefinitions.
Context {P : Platform}.
Import Inject.

(** [buffer += text] *)
Definition add_text (st : Observation) (text : jsstring) : Observation :=
  mkObs (buffer st ++ text) (collected st) (lines st).

(** What [read] does after the loop has run on all the text. *)
Definition settle (fin : stream_end) (st : Observation)
  : completion (Observation * option value) :=
  match fin with
  | Closed => Normal (st, dispatch st)
  | Errored e => Throw e
  end.

(** Deduplication as the specification words it: an entry is kept when no
    earlier entry has its url, so the first occurrence wins and the order of
    first occurrences is kept. *)
Fixpoint dedup_first_wins (l : list Citation) : list Citation :=
  match l with
  | [] => []
  | c :: rest =>
      c :: List.filter (fun x => negb (streq (url x) (url c))) (dedup_first_wins rest)
  end.

Definition unseen (seen : list jsstring) (x : Citation) : bool :=
  negb (existsb (streq (url x)) seen).

(** The table of the specification: host name, service key. *)
Definition service_table : list (jsstring * jsstring) :=
  [(lit "chatgpt.com", lit "chatgpt");
   (lit "chat.openai.com", lit "chatgpt");
   (lit "claude.ai", lit "claude");
   (lit "gemini.google.com", lit "gemini");
   (lit "perplexity.ai", lit "perplexity")].

(** Exact match of a host name against the table. *)
Fixpoint table_lookup (host : jsstring) (table : list (jsstring * jsstring))
  : option jsstring :=
  match table with
  | [] => None
  | (h, key) :: rest => if streq host h then Some key else table_lookup host rest
  end.

(** The reading of C3 as written: whatever the [items] of a mapping yield, and
    whatever the values of its keys yield, is in what the miner returns for
    the mapping, footnote marker or not. *)
Definition footnote_mined_like_any_mapping : Prop :=
  forall (props : list (jsstring * value)) (found : list Citation) (c : Citation),
    (exists items, items_array props = Some items /\ In c (push_sources items []))
    \/ (exists k v, In (k, v) props /\ In c (extractSourcesFromPayload v [])) ->
    In c (extractSourcesFromPayload (JObject props) found).

(** [collected] after the loop body has run on a line. *)
Definition handled (collected : list Citation) (line : jsstring) : list Citation :=
  match handle_line line collected with
  | Normal c => c
  | Throw _ => collected
  end.

(** The classifier as the specification words it: parse the url, lower-case
    the host name, look it up in the table; [None] when the url is missing,
    empty or unparseable, or the host is not in the table. *)
Definition classify_by_table (url : option jsstring) : option jsstring :=
  match url with
  | Some (c :: u) =>
      match URL_hostname (c :: u) with
      | Normal hostname => table_lookup (toLowerCase hostname) service_table
      | Throw _ => None
      end
  | _ => None
  end.

(** The reading of C5 as written: whenever a shadow stream completes, the
    sink holds the deduplicated citations of that stream. *)
Definition sink_replaced_on_every_completion : Prop :=
  forall (stream : Stream) (before : list value) (st : Observation)
         (posted : option value),
    consumeStream stream TextDecoder_new = Normal (st, posted) ->
    sink_after_stream stream before
    = List.map citation_object (dedup_first_wins (collected st)).

End StatementDefinitions.

(* ===================================================================== *)
(** ** A concrete platform, for running the definitions *)
(* ===================================================================== *)

Definition ascii_lower (c : N) : N :=
  (if (65 <=? c) && (c <=? 90) then c + 32 else c)%N.

Definition ascii_upper (c : N) : N :=
  (if (97 <=? c) && (c <=? 122) then c - 32 else c)%N.

(** The part of [s] before the first unit satisfying [stop]. *)
Fixpoint take_until (stop : N -> bool) (s : jsstring) : jsstring :=
  match s with
  | [] => []
  | c :: s' => if stop c then [] else c :: take_until stop s'
  end.

(** The text after the first [://], if any. *)
Fixpoint after_scheme (s : jsstring) : option jsstring :=
  match s with
  | [] => None
  | c :: s' =>
      if startsWith s (lit "://") then Some (slice_from s 3) else after_scheme s'
  end.

(** Hosts of absolute [scheme://host...] URLs; everything else is rejected. *)
Definition sample_hostname (u : jsstring) : completion jsstring :=
  match after_scheme u with
  | Some rest =>
      Normal (List.map ascii_lower
                (take_until (fun c => (c =? 47) || (c =? 63) || (c =? 35) || (c =? 58))%N
                            rest))
  | None => Throw TypeError
  end.

Definition cite (u t : string) : value :=
  JObject [(lit "url", JString (lit u)); (lit "title", JString (lit t))].

(** A literal with each apostrophe read as a double quote. *)
Definition quoted (s : string) : jsstring :=
  List.map (fun c => if (c =? 39)%N then 34%N else c) (lit s).

(** The UTF-8 bytes of an ASCII [jsstring]. *)
Definition ascii_bytes (s : jsstring) : list byte :=
  List.map (fun c => match Byte.of_N c with Some b => b | None => x00 end) s.

(** [{ type: 'sources_footnote', sources: [a, b, a again] }] *)
Definition footnote_doc : value :=
  JObject [(lit "type", JString (lit "sources_footnote"));
           (lit "sources", JArray [cite "https://a.example" "A";
                                   cite "https://b.example" "B";
                                   cite "https://a.example" "A again"])].

Definition footnote_text : jsstring :=
  quoted "{'type':'sources_footnote','sources':[{'url':'https://a.example','title':'A'},{'url':'https://b.example','title':'B'},{'url':'https://a.example','title':'A again'}]}".

(** A parser that knows five texts. *)
Definition sample_parse (text : jsstring) : completion value :=
  if streq text (quoted "{'items':[{'url':'https://a.example','title':'A'}]}")
  then Normal (JObject [(lit "items", JArray [cite "https://a.example" "A"])])
  else if streq text footnote_text
  then Normal footnote_doc
  else if streq text (quoted "{'a':1}")
  then Normal (JObject [(lit "a", JNumber (S754_finite false 1 0))])
  else if streq text (lit "[]") then Normal (JArray [])
  else if streq text (lit "null") then Normal JNull
  else Throw SyntaxError.

Definition sample_platform : Platform :=
  {| JSON_parse := sample_parse;
     URL_hostname := sample_hostname;
     toLowerCase := List.map ascii_lower;
     toUpperCase := List.map ascii_upper |}.

(** [{ type: 'sources_footnote', sources: [], items: [{url: 'https://a.example', title: 'A'}] }] *)
Definition footnote_with_items : list (jsstring * value) :=
  [(lit "type", JString (lit "sources_footnote"));
   (lit "sources", JArray []);
   (lit "items", JArray [cite "https://a.example" "A"])].

(** The final state and the posted message of a run, for naming them. *)
Definition final_state (r : completion (Inject.Observation * option value))
  : Inject.Observation :=
  match r with
  | Normal (st, _) => st
  | Throw _ => Inject.mkObs [] [] []
  end.

Definition final_message (r : completion (Inject.Observation * option value))
  : option value :=
  match r with
  | Normal (_, posted) => posted
  | Throw _ => None
  end.

Definition run (stream : Stream) : completion (Inject.Observation * option value) :=
  Inject.consumeStream (P := sample_platform) stream TextDecoder_new.

(** The bytes of [data: {"a":1}\n\ndata: [DONE]\n]. *)
Definition two_events : list byte :=
  ascii_bytes (quoted "data: {'a':1}" ++ [NL; NL] ++ lit "data: [DONE]" ++ [NL]).

(** A stream whose one event is a footnote with the urls a, b, a. *)
Definition footnote_stream : Stream :=
  mkStream
    [ascii_bytes (lit "data: " ++ footnote_text ++ [NL; NL])]
    Closed.

(** A stream whose one event carries no citation. *)
Definition plain_stream : Stream :=
  mkStream [ascii_bytes (quoted "data: {'a':1}" ++ [NL; NL])] Closed.

(** What the sink holds after a stream that cited [https://c.example]. *)
Definition sink_c : list value :=
  [Inject.citation_object
     (mkCitation (lit "https://c.example") (JString []) (JString []))].

(** The line [data: {"items":[{"url":"https://a.example","title":"A"}]}]. *)
Definition items_line : jsstring :=
  quoted "data: {'items':[{'url':'https://a.example','title':'A'}]}".

(** An event-stream response of the conversation endpoint. *)
Definition conversation_url : jsstring :=
  lit "https://chatgpt.com/backend-api/f/conversation".

Definition event_stream_response : Response :=
  mkResponse 200 (lit "OK") [(lit "content-type", lit "text/event-stream; charset=utf-8")]
             (Some footnote_stream) conversation_url false RtBasic.

Definition sample_fetch (input : FetchInput) (init : option RequestInit)
  : completion Response :=
  Normal event_stream_response.

Definition post_init : option RequestInit := Some (mkInit (Some (lit "post"))).
Definition get_init : option RequestInit := Some (mkInit (Some (lit "get"))).

(** ** Definitions used by the corrected statements *)

(** The text after the first unit satisfying [stop], that unit included. *)
Fixpoint drop_until (stop : N -> bool) (s : jsstring) : jsstring :=
  match s with
  | [] => []
  | c :: s' => if stop c then s else drop_until stop s'
  end.

(** Modelled from the URL standard, not from the repository: the path of a
    text [scheme://authority/path?query#fragment] (the part from the first
    [/] after the authority up to [?] or [#]; [/] when there is none), and
    of a relative reference without [://] (the part up to [?] or [#]). *)
Definition url_path (u : jsstring) : jsstring :=
  let ends := fun c => ((c =? 63) || (c =? 35))%N in
  match after_scheme u with
  | Some rest =>
      match drop_until (fun c => (c =? 47)%N || ends c) rest with
      | c :: s' => if (c =? 47)%N then take_until ends (c :: s') else lit "/"
      | [] => lit "/"
      end
  | None => take_until ends u
  end.

(** The address a call of [fetch] requests: the string, the [url] of the
    [Request], the [href] of the [URL] object. *)
Definition call_url (input : FetchInput) : jsstring :=
  match input with
  | InputString s => s
  | InputRequest r => req_url r
  | InputURL href => href
  end.

(** The methods [fetch] normalises to upper case. *)
Definition standard_methods : list jsstring :=
  [lit "DELETE"; lit "GET"; lit "HEAD"; lit "OPTIONS"; lit "POST"; lit "PUT"].

Definition normalize_method (m : jsstring) : jsstring :=
  let upper := List.map ascii_upper m in
  if existsb (streq upper) standard_methods then upper else m.

(** The HTTP method a call of [fetch] uses: [init.method] when given, else
    the method of the [Request], else [GET]. *)
Definition call_method (input : FetchInput) (init : option RequestInit) : jsstring :=
  match init with
  | Some (mkInit (Some m)) => normalize_method m
  | _ =>
      match input with
      | InputRequest r => req_method r
      | _ => lit "GET"
      end
  end.

Section CorrectedStatements.
Context {P : Platform}.

(** The reading of C8 as written: a call is in scope exactly when the path
    of its address contains both segments and its HTTP method is [POST]. *)
Definition in_scope_by_path_and_method : Prop :=
  forall (input : FetchInput) (init : option RequestInit),
    Inject.isConversation input init = true <->
    contains (url_path (call_url input)) (lit "/backend-api/")
    /\ contains (url_path (call_url input)) (lit "conversation")
    /\ call_method input init = lit "POST".

(** The reading of C1 as written: whenever the original call resolves, the
    caller of the wrapped call gets a response that cannot be told from the
    original one. *)
Definition wrapped_response_is_the_original : Prop :=
  forall (originalFetch : FetchInput -> option RequestInit -> completion Response)
         (input : FetchInput) (init : option RequestInit) (response : Response),
    originalFetch input init = Normal response ->
    Response_wf response ->
    Inject.returned (Inject.fetch originalFetch input init) = Normal response.

End CorrectedStatements.

(** A [POST] on an address whose query, not its path, holds the segments. *)
Definition query_url : jsstring :=
  lit "https://chatgpt.com/?next=/backend-api/conversation".

Definition POST_init : option RequestInit := Some (mkInit (Some (lit "POST"))).

(* ===================================================================== *)
(** * Properties *)
(* ===================================================================== *)

(** ** Strings *)

Lemma streq_eq (a b : jsstring) : streq a b = true <-> a = b.
Proof.
  revert b. induction a as [|x a IH]; intros [|y b]; simpl; split;
    try congruence; try reflexivity.
  - intros H. apply andb_true_iff in H as [Hx Hr].
    apply N.eqb_eq in Hx. apply IH in Hr. congruence.
  - intros H. injection H as -> ->. rewrite N.eqb_refl. simpl. now apply IH.
Qed.

Lemma streq_refl (a : jsstring) : streq a a = true.
Proof. now apply streq_eq. Qed.

Lemma streq_sym (a b : jsstring) : streq a b = streq b a.
Proof.
  destruct (streq a b) eqn:E1, (streq b a) eqn:E2; try reflexivity.
  - apply streq_eq in E1. subst. now rewrite streq_refl in E2.
  - apply streq_eq in E2. subst. now rewrite streq_refl in E1.
Qed.

Lemma startsWith_spec (s p : jsstring) :
  startsWith s p = true <-> exists post, s = p ++ post.
Proof.
  revert s. induction p as [|c p IH]; intros s; simpl.
  - split; [intros _; now exists s | reflexivity].
  - destruct s as [|d s]; simpl.
    + split; [discriminate | intros [post H]; discriminate].
    + rewrite andb_true_iff, N.eqb_eq, IH. split.
      * intros [-> [post ->]]. now exists post.
      * intros [post H]. injection H as -> ->. split; [reflexivity | now exists post].
Qed.

(** [includes] is the substring test. *)
Lemma includes_spec (s p : jsstring) :
  includes s p = true <-> exists pre post, s = pre ++ p ++ post.
Proof.
  induction s as [|c s IH].
  - simpl. rewrite orb_false_r, startsWith_spec. split.
    + intros [post H]. now exists [], post.
    + intros [pre [post H]]. destruct pre; [now exists post | discriminate].
  - cbn [includes]. rewrite orb_true_iff, startsWith_spec, IH. split.
    + intros [[post H] | [pre [post H]]].
      * now exists [], post.
      * exists (c :: pre), post. simpl. now rewrite H.
    + intros [pre [post H]]. destruct pre as [|d pre].
      * left. now exists post.
      * right. injection H as -> H. now exists pre, post.
Qed.

(** ** The miner only appends *)

(** Induction on JSON values, with the hypothesis on every element and on
    every property value. *)
Lemma value_ind (Q : value -> Prop) :
  Q JNull ->
  (forall b, Q (JBool b)) ->
  (forall x, Q (JNumber x)) ->
  (forall s, Q (JString s)) ->
  (forall elems, Forall Q elems -> Q (JArray elems)) ->
  (forall props, Forall (fun kv => Q (snd kv)) props -> Q (JObject props)) ->
  forall v, Q v.
Proof.
  intros Hnull Hbool Hnum Hstr Harr Hobj.
  fix IH 1. intros v. destruct v as [ | b | x | s | elems | props ].
  - exact Hnull.
  - exact (Hbool b).
  - exact (Hnum x).
  - exact (Hstr s).
  - apply Harr. revert elems. fix IHl 1.
    intros [|e elems]; constructor; [apply IH | apply IHl].
  - apply Hobj. revert props. fix IHl 1.
    intros [|[k e] props]; constructor; [apply IH | apply IHl].
Qed.

Lemma extract_array (elems : list value) (found : list Citation) :
  extractSourcesFromPayload (JArray elems) found = mine_each elems found.
Proof.
  simpl. unfold mine_each. revert found.
  induction elems as [|x l IH]; intros found; simpl; [reflexivity | apply IH].
Qed.

Lemma extract_object (props : list (jsstring * value)) (found : list Citation) :
  extractSourcesFromPayload (JObject props) found =
  match footnote_sources props with
  | Some srcs => push_sources srcs found
  | None =>
      mine_keys props
        (match items_array props with
         | Some items => push_sources items found
         | None => found
         end)
  end.
Proof.
  simpl. destruct (footnote_sources props); [reflexivity|].
  unfold mine_keys.
  set (acc := match items_array props with
              | Some items => push_sources items found
              | None => found
              end).
  clearbody acc. revert acc.
  induction props as [|[k v] ps IH]; intros acc; simpl; [reflexivity | apply IH].
Qed.

Lemma push_sources_app (arr : list value) (found : list Citation) :
  push_sources arr found = found ++ push_sources arr [].
Proof.
  revert found. induction arr as [|s arr IH]; intros found; simpl.
  - now rewrite app_nil_r.
  - destruct (source_entry s) as [c|].
    + rewrite IH, (IH [c]). now rewrite <- app_assoc.
    + apply IH.
Qed.

Lemma extract_app (v : value) (found : list Citation) :
  extractSourcesFromPayload v found = found ++ extractSourcesFromPayload v [].
Proof.
  revert found. induction v as [ | b | x | s | elems IH | props IH ] using value_ind;
    intros found; try (simpl; now rewrite app_nil_r).
  - rewrite !extract_array. unfold mine_each.
    revert found. induction IH as [|e l He _ IHl]; intros found; simpl.
    + now rewrite app_nil_r.
    + rewrite IHl, (IHl (extractSourcesFromPayload e [])), He.
      now rewrite <- app_assoc.
  - rewrite !extract_object. destruct (footnote_sources props) as [srcs|].
    + apply push_sources_app.
    + assert (Hk : forall ps, Forall (fun kv => forall f,
                 extractSourcesFromPayload (snd kv) f
                 = f ++ extractSourcesFromPayload (snd kv) []) ps ->
               forall acc, mine_keys ps acc = acc ++ mine_keys ps []).
      { clear. intros ps HF. unfold mine_keys.
        induction HF as [|kv l He _ IHl]; intros acc; simpl.
        - now rewrite app_nil_r.
        - rewrite IHl, (IHl (extractSourcesFromPayload (snd kv) [])), He.
          now rewrite <- app_assoc. }
      destruct (items_array props) as [items|].
      * rewrite (Hk props IH), (Hk props IH (push_sources items [])).
        rewrite (push_sources_app items found). now rewrite <- app_assoc.
      * rewrite (Hk props IH). reflexivity.
Qed.

Lemma mine_keys_flat_map (ps : list (jsstring * value)) (found : list Citation) :
  mine_keys ps found =
  found ++ List.flat_map (fun kv => extractSourcesFromPayload (snd kv) []) ps.
Proof.
  unfold mine_keys. revert found.
  induction ps as [|kv ps IH]; intros found; simpl.
  - now rewrite app_nil_r.
  - rewrite IH, extract_app. now rewrite <- app_assoc.
Qed.

Lemma mine_each_flat_map (l : list value) (found : list Citation) :
  mine_each l found =
  found ++ List.flat_map (fun x => extractSourcesFromPayload x []) l.
Proof.
  unfold mine_each. revert found.
  induction l as [|x l IH]; intros found; simpl.
  - now rewrite app_nil_r.
  - rewrite IH, extract_app. now rewrite <- app_assoc.
Qed.

(** ** C3: what the miner takes from a mapping *)

(** C3, counterexample: on a mapping that carries the footnote marker with an
    empty [sources] array and an [items] array holding one entry with a string
    [url], the miner returns nothing: neither the [items] extraction nor the
    descent into the [items] key took place. *)
Lemma footnote_marker_suppresses_items : ~ footnote_mined_like_any_mapping.
Proof.
  intros H.
  specialize (H footnote_with_items []
                (mkCitation (lit "https://a.example") (JString (lit "A")) (JString []))).
  assert (Hnone : extractSourcesFromPayload (JObject footnote_with_items) [] = [])
    by reflexivity.
  rewrite Hnone in H. apply H. left.
  exists [cite "https://a.example" "A"]. split; [reflexivity | now left].
Qed.

(** C3, amended: a mapping whose [type] is [sources_footnote] and whose
    [sources] is an array adds the citations of its [sources] and nothing
    else (no [items] extraction, no descent into its keys); every other
    mapping adds the citations of its [items] array, if it has one, followed
    by what the miner finds in the value of each of its keys, in key order. *)
Theorem mapping_extraction (props : list (jsstring * value)) (found : list Citation) :
  extractSourcesFromPayload (JObject props) found =
  match footnote_sources props with
  | Some srcs => found ++ push_sources srcs []
  | None =>
      found
      ++ match items_array props with
         | Some items => push_sources items []
         | None => []
         end
      ++ List.flat_map (fun kv => extractSourcesFromPayload (snd kv) []) props
  end.
Proof.
  rewrite extract_object. destruct (footnote_sources props) as [srcs|].
  - apply push_sources_app.
  - rewrite mine_keys_flat_map. destruct (items_array props) as [items|].
    + rewrite (push_sources_app items found). now rewrite <- app_assoc.
    + reflexivity.
Qed.

(** ** The line loop *)

Section LineLoop.
Context {P : Platform}.
Import Inject.

Lemma processDataLine_cases (line : jsstring) (collected : list Citation) :
  processDataLine line collected =
  Normal (match trim line with
          | [] => collected
          | _ :: _ =>
              if streq (trim line) (lit "[DONE]") then collected
              else match JSON_parse (trim line) with
                   | Normal data => extractSourcesFromPayload data collected
                   | Throw _ => collected
                   end
          end).
Proof.
  unfold processDataLine. destruct (trim line) as [|c t]; [reflexivity|].
  destruct (streq (c :: t) (lit "[DONE]")); [reflexivity|].
  destruct (JSON_parse (c :: t)); reflexivity.
Qed.

Lemma handle_line_normal (line : jsstring) (collected : list Citation) :
  exists c, handle_line line collected = Normal c.
Proof.
  unfold handle_line. destruct (startsWith line (lit "data:")).
  - rewrite processDataLine_cases. eauto.
  - eauto.
Qed.

(** One turn of the [while] loop. *)
Lemma processBuffer_step (st : Observation) :
  processBuffer st =
  let idx := indexOf (buffer st) NL in
  if idx =? -1 then Normal st
  else
    match handle_line (slice (buffer st) 0 idx) (collected st) with
    | Throw e => Throw e
    | Normal c =>
        processBuffer (mkObs (slice_from (buffer st) (idx + 1)) c
                             (lines st ++ [slice (buffer st) 0 idx]))
    end.
Proof.
  funelim (processBuffer st); cbv zeta.
  - match goal with E : (_ =? -1) = true |- _ => now rewrite E end.
  - match goal with E : (_ =? -1) = false |- _ => rewrite E end.
    match goal with E : handle_line _ _ = Normal _ |- _ => now rewrite E end.
  - match goal with E : (_ =? -1) = false |- _ => rewrite E end.
    match goal with E : handle_line _ _ = Throw _ |- _ => now rewrite E end.
Qed.

(** The loop never throws. *)
Lemma processBuffer_normal (st : Observation) :
  exists st', processBuffer st = Normal st'.
Proof.
  funelim (processBuffer st).
  - eauto.
  - assumption.
  - match goal with E : handle_line ?l ?c = Throw _ |- _ =>
      destruct (handle_line_normal l c) as [c' Hc]; congruence
    end.
Qed.

(** When the loop stops, no newline is left in the buffer. *)
Lemma processBuffer_exit (st st' : Observation) :
  processBuffer st = Normal st' -> indexOf (buffer st') NL = -1.
Proof.
  funelim (processBuffer st); intros Hst.
  - injection Hst as <-. now apply Z.eqb_eq.
  - auto.
  - discriminate.
Qed.

Lemma processBuffer_fixed (st : Observation) :
  indexOf (buffer st) NL = -1 -> processBuffer st = Normal st.
Proof. intros H. rewrite processBuffer_step. cbv zeta. now rewrite H. Qed.

(** A second call right after a first changes nothing. *)
Lemma processBuffer_twice (st st' : Observation) :
  processBuffer st = Normal st' -> processBuffer st' = Normal st'.
Proof. intros H. apply processBuffer_fixed. exact (processBuffer_exit _ _ H). Qed.

End LineLoop.

(** ** Appending text to the buffer *)

Lemma indexOf_from_app (s t : jsstring) (c : N) (i : Z) :
  indexOf_from s c i <> -1 -> indexOf_from (s ++ t) c i = indexOf_from s c i.
Proof.
  revert i. induction s as [|x s IH]; intros i; simpl.
  - congruence.
  - destruct (N.eqb x c); [reflexivity | apply IH].
Qed.

Lemma slice_0_app (s t : jsstring) (idx : Z) :
  0 <= idx <= Z.of_nat (List.length s) -> slice (s ++ t) 0 idx = slice s 0 idx.
Proof.
  intros H. rewrite !slice_0_firstn by lia. rewrite firstn_app.
  replace (Z.to_nat idx - List.length s)%nat with 0%nat by lia.
  simpl. apply app_nil_r.
Qed.

Lemma slice_from_app (s t : jsstring) (k : Z) :
  0 <= k <= Z.of_nat (List.length s) -> slice_from (s ++ t) k = slice_from s k ++ t.
Proof.
  intros H. rewrite !slice_from_skipn by lia. rewrite skipn_app.
  replace (Z.to_nat k - List.length s)%nat with 0%nat by lia.
  reflexivity.
Qed.

Lemma decode_app (d : TextDecoder) (a b : list byte) :
  decode d (a ++ b) =
  let '(d1, t1) := decode d a in
  let '(d2, t2) := decode d1 b in
  (d2, t1 ++ t2).
Proof.
  revert d. induction a as [|x a IH]; intros d; simpl.
  - destruct (decode d b); reflexivity.
  - destruct (decode_byte d x) as [d1 o1]. rewrite IH.
    destruct (decode d1 a) as [d2 o2]. destruct (decode d2 b) as [d3 o3].
    now rewrite app_assoc.
Qed.

Section Chunking.
Context {P : Platform}.
Import Inject.

Lemma add_text_nil (st : Observation) : add_text st [] = st.
Proof. destruct st. unfold add_text. simpl. now rewrite app_nil_r. Qed.

Lemma add_text_app (st : Observation) (t1 t2 : jsstring) :
  add_text st (t1 ++ t2) = add_text (add_text st t1) t2.
Proof. unfold add_text. simpl. now rewrite app_assoc. Qed.

(** Running the loop on the buffer and then on the buffer with more text is
    running it once on the whole. *)
Lemma processBuffer_append (st : Observation) (text : jsstring) :
  processBuffer (add_text st text) =
  bind (processBuffer st) (fun st' => processBuffer (add_text st' text)).
Proof.
  funelim (processBuffer st).
  - reflexivity.
  - match goal with IH : forall t, processBuffer (add_text _ t) = _ |- _ =>
      rewrite <- IH
    end.
    rewrite (processBuffer_step (add_text st text)).
    cbv zeta. cbn [add_text buffer collected lines].
    match goal with E : (indexOf ?b NL =? -1) = false |- _ =>
      pose proof E as Hne'; apply Z.eqb_neq in Hne';
      destruct (indexOf_range b NL) as [Hr|Hr]; [contradiction|];
      assert (Hi : indexOf (b ++ text) NL = indexOf b NL)
        by (apply indexOf_from_app; exact Hne');
      rewrite Hi, E
    end.
    rewrite slice_0_app by lia.
    match goal with E : handle_line _ _ = Normal _ |- _ => rewrite E end.
    rewrite slice_from_app by lia. reflexivity.
  - cbn [bind]. rewrite (processBuffer_step (add_text st text)).
    cbv zeta. cbn [add_text buffer collected lines].
    match goal with E : (indexOf ?b NL =? -1) = false |- _ =>
      pose proof E as Hne'; apply Z.eqb_neq in Hne';
      destruct (indexOf_range b NL) as [Hr|Hr]; [contradiction|];
      assert (Hi : indexOf (b ++ text) NL = indexOf b NL)
        by (apply indexOf_from_app; exact Hne');
      rewrite Hi, E
    end.
    rewrite slice_0_app by lia.
    match goal with E : handle_line _ _ = Throw _ |- _ => now rewrite E end.
Qed.

(** [read] over any chunking is one decoding of all the bytes, one run of the
    loop on all the text, and the end of the stream. *)
Lemma read_concat (cs : list (list byte)) (fin : stream_end)
  (d : TextDecoder) (st : Observation) :
  read cs fin d st =
  let '(_, text) := decode d (List.concat cs) in
  bind (processBuffer (add_text st text)) (settle fin).
Proof.
  revert d st. induction cs as [|c cs IH]; intros d st.
  - simpl. rewrite add_text_nil.
    destruct (processBuffer_normal st) as [st1 H1]. rewrite H1. simpl.
    destruct fin; [|reflexivity].
    rewrite (processBuffer_twice _ _ H1). reflexivity.
  - cbn [read List.concat]. rewrite decode_app.
    destruct (decode d c) as [d1 t1].
    change (mkObs (buffer st ++ t1) (collected st) (lines st))
      with (add_text st t1).
    destruct (processBuffer_normal (add_text st t1)) as [st2 H2].
    rewrite H2. cbn [bind]. rewrite IH.
    destruct (decode d1 (List.concat cs)) as [d2 t2].
    rewrite (add_text_app st t1 t2).
    rewrite (processBuffer_append (add_text st t1) t2), H2. reflexivity.
Qed.

End Chunking.

(** ** The lines of a text *)

Lemma indexOf_from_succ (s : jsstring) (c : N) (i : Z) :
  0 <= i ->
  indexOf_from s c (i + 1) =
  if indexOf_from s c i =? -1 then -1 else indexOf_from s c i + 1.
Proof.
  revert i. induction s as [|x s IH]; intros i Hi; simpl.
  - reflexivity.
  - destruct (N.eqb x c).
    + destruct (Z.eqb_spec i (-1)); [lia | reflexivity].
    + apply IH. lia.
Qed.

Lemma indexOf_cons (x : N) (s : jsstring) (c : N) :
  indexOf (x :: s) c =
  if N.eqb x c then 0
  else if indexOf s c =? -1 then -1 else indexOf s c + 1.
Proof.
  unfold indexOf. simpl. destruct (N.eqb x c); [reflexivity|].
  apply (indexOf_from_succ s c 0). lia.
Qed.

Lemma split_lines_no_newline (text : jsstring) :
  indexOf text NL = -1 -> split_lines text = ([], text).
Proof.
  induction text as [|c text IH]; [reflexivity|].
  rewrite indexOf_cons. simpl.
  destruct (N.eqb c NL); [discriminate|].
  destruct (Z.eqb_spec (indexOf text NL) (-1)) as [E|E].
  - intros _. now rewrite (IH E).
  - destruct (indexOf_range text NL); [contradiction | lia].
Qed.

Lemma split_lines_first (text : jsstring) :
  indexOf text NL <> -1 ->
  split_lines text =
  let '(ls, tail) := split_lines (slice_from text (indexOf text NL + 1)) in
  (slice text 0 (indexOf text NL) :: ls, tail).
Proof.
  induction text as [|c text IH]; [intros H; now elim H|].
  rewrite indexOf_cons. cbn [split_lines].
  destruct (N.eqb c NL) eqn:Ec.
  - intros _. rewrite slice_from_skipn by lia. rewrite slice_0_firstn by lia.
    simpl. destruct (split_lines text); reflexivity.
  - destruct (Z.eqb_spec (indexOf text NL) (-1)) as [E|E]; [intros H; now elim H|].
    intros _. destruct (indexOf_range text NL) as [Hr|Hr]; [contradiction|].
    rewrite (IH E).
    rewrite !slice_from_skipn by lia. rewrite !slice_0_firstn by lia.
    assert (H1 : Z.to_nat (indexOf text NL + 1) = S (Z.to_nat (indexOf text NL)))
      by lia.
    assert (H2 : Z.to_nat (indexOf text NL + 1 + 1) = S (S (Z.to_nat (indexOf text NL))))
      by lia.
    rewrite H2, H1. cbn [skipn firstn].
    match goal with |- context [split_lines ?t] => destruct (split_lines t) end.
    reflexivity.
Qed.

(** The lines hold no newline, nor does the tail, and they spell the text. *)
Lemma split_lines_spec (text : jsstring) :
  let '(ls, tail) := split_lines text in
  text = List.concat (List.map (fun l => l ++ [NL]) ls) ++ tail
  /\ Forall (fun l => ~ In NL l) ls /\ ~ In NL tail.
Proof.
  induction text as [|c text IH]; cbn [split_lines].
  - repeat split; auto.
  - destruct (split_lines text) as [ls tail]. destruct IH as (Ht & Hl & Hn).
    destruct (N.eqb_spec c NL) as [Hc|Hc].
    + split; [|split].
      * simpl. now rewrite <- Ht, Hc.
      * constructor; auto.
      * exact Hn.
    + destruct ls as [|l ls].
      * split; [|split].
        -- simpl in *. now rewrite <- Ht.
        -- constructor.
        -- simpl. intros [H|H]; [now apply Hc | now apply Hn].
      * pose proof (Forall_inv Hl) as Hl1. pose proof (Forall_inv_tail Hl) as Hl2.
        split; [|split].
        -- simpl in *. now rewrite <- Ht.
        -- constructor; [|exact Hl2].
           simpl. intros [H|H]; [now apply Hc | now apply Hl1].
        -- exact Hn.
Qed.

Section Lines.
Context {P : Platform}.
Import Inject.

(** The loop hands every newline-terminated line of the buffer, in order, to
    its body, and leaves in the buffer what follows the last newline. *)
Lemma processBuffer_lines (st : Observation) :
  processBuffer st =
  let '(ls, tail) := split_lines (buffer st) in
  Normal (mkObs tail (List.fold_left handled ls (collected st)) (lines st ++ ls)).
Proof.
  funelim (processBuffer st).
  - match goal with E : (_ =? -1) = true |- _ =>
      rewrite (split_lines_no_newline _ (proj1 (Z.eqb_eq _ _) E)) end.
    destruct st. simpl. now rewrite app_nil_r.
  - match goal with IH : processBuffer _ = match split_lines _ with _ => _ end |- _ =>
      rewrite IH end.
    cbn [buffer collected lines].
    match goal with E : (_ =? -1) = false |- _ =>
      rewrite (split_lines_first (buffer st) (proj1 (Z.eqb_neq _ _) E)) end.
    destruct (split_lines (slice_from _ _)) as [ls tail].
    cbn [List.fold_left].
    replace (handled (collected st) (slice (buffer st) 0 (indexOf (buffer st) NL)))
      with c
      by (unfold handled;
          match goal with E : handle_line _ _ = Normal _ |- _ => now rewrite E end).
    now rewrite <- app_assoc.
  - match goal with E : handle_line ?l ?c = Throw _ |- _ =>
      destruct (handle_line_normal l c) as [c' Hc]; congruence
    end.
Qed.

(** The whole run of [consumeStream], in one equation. *)
Lemma consumeStream_lines (stream : Stream) (d : TextDecoder) :
  consumeStream stream d =
  let '(ls, tail) := split_lines (snd (decode d (body_bytes stream))) in
  settle (ending stream) (mkObs tail (List.fold_left handled ls []) ls).
Proof.
  unfold consumeStream, body_bytes. rewrite read_concat.
  destruct (decode d (List.concat (chunks stream))) as [d' text].
  rewrite processBuffer_lines. cbn [add_text buffer collected lines snd app].
  destruct (split_lines text); reflexivity.
Qed.

End Lines.

(** ** Deduplication by url *)

Lemma filter_filter {A} (f g : A -> bool) (l : list A) :
  List.filter f (List.filter g l) = List.filter (fun x => g x && f x) l.
Proof.
  induction l as [|x l IH]; simpl; [reflexivity|].
  destruct (g x); simpl; [destruct (f x); now rewrite IH | exact IH].
Qed.

Lemma unique_by_url_filter (l : list Citation) (seen : list jsstring) :
  Inject.unique_by_url l seen = List.filter (unseen seen) (dedup_first_wins l).
Proof.
  revert seen. induction l as [|c l IH]; intros seen; simpl; [reflexivity|].
  unfold unseen at 1. destruct (existsb (streq (url c)) seen) eqn:Hc; simpl.
  - rewrite IH, filter_filter. apply filter_ext_in. intros x _.
    destruct (streq (url x) (url c)) eqn:Hx; simpl; [|reflexivity].
    apply streq_eq in Hx. unfold unseen. now rewrite Hx, Hc.
  - rewrite IH, filter_filter. f_equal. apply filter_ext. intros x.
    unfold unseen. simpl. rewrite (streq_sym (url x) (url c)).
    destruct (streq (url c) (url x)); reflexivity.
Qed.

(** The filter of the [done] branch is first-occurrence deduplication. *)
Lemma unique_by_url_dedup (l : list Citation) :
  Inject.unique_by_url l [] = dedup_first_wins l.
Proof.
  rewrite unique_by_url_filter.
  rewrite (filter_ext (unseen []) (fun _ => true)) by reflexivity.
  induction (dedup_first_wins l) as [|x r IH]; simpl; [reflexivity | now rewrite IH].
Qed.

Lemma dedup_urls_incl (l : list Citation) (x : Citation) :
  In x (dedup_first_wins l) -> In x l.
Proof.
  revert x. induction l as [|c l IH]; intros x; simpl; [auto|].
  intros [H|H]; [now left|]. apply filter_In in H. right. now apply IH.
Qed.

(** No two kept entries share a url. *)
Lemma dedup_NoDup (l : list Citation) :
  NoDup (List.map url (dedup_first_wins l)).
Proof.
  induction l as [|c l IH]; simpl; [constructor|].
  constructor.
  - intros Hin. apply in_map_iff in Hin as (x & Hx & Hin).
    apply filter_In in Hin as (_ & Hne).
    rewrite Hx, streq_refl in Hne. discriminate.
  - clear -IH. induction (dedup_first_wins l) as [|x r IHr]; simpl; [constructor|].
    inversion IH as [|? ? Hnot Hnd]; subst.
    destruct (negb (streq (url x) (url c))); simpl; [|now apply IHr].
    constructor; [|now apply IHr].
    intros Hin. apply Hnot. apply in_map_iff in Hin as (y & Hy & Hin).
    apply filter_In in Hin as (Hin & _). apply in_map_iff. eauto.
Qed.

(** Every url of the input is the url of a kept entry. *)
Lemma dedup_covers (l : list Citation) (x : Citation) :
  In x l -> In (url x) (List.map url (dedup_first_wins l)).
Proof.
  induction l as [|c l IH]; simpl; [auto|].
  intros [->|H]; [now left|].
  destruct (streq (url x) (url c)) eqn:E.
  - left. apply streq_eq in E. now symmetry.
  - right. specialize (IH H). apply in_map_iff in IH as (y & Hy & Hin).
    apply in_map_iff. exists y. split; [exact Hy|].
    apply filter_In. split; [exact Hin|]. now rewrite Hy, E.
Qed.

(* ===================================================================== *)
(** * The claims *)
(* ===================================================================== *)

Section Claims.
Context {P : Platform}.
Import Inject.

(** C4: for two chunkings of the same bytes (and the same end of stream), the
    shadow consumer ends in the same state and posts the same message: the
    same lines extracted in the same order, the same citations collected, the
    same text left in the buffer. The lines are the newline-terminated lines
    of the decoded text of all the bytes. *)
Theorem chunking_does_not_matter (cs1 cs2 : list (list byte)) (fin : stream_end)
  (d : TextDecoder) :
  List.concat cs1 = List.concat cs2 ->
  consumeStream (mkStream cs1 fin) d = consumeStream (mkStream cs2 fin) d
  /\ consumeStream (mkStream cs1 fin) d =
     (let '(ls, tail) := split_lines (snd (decode d (List.concat cs1))) in
      settle fin (mkObs tail (List.fold_left handled ls []) ls)).
Proof.
  intros H. rewrite !consumeStream_lines. unfold body_bytes. cbn [chunks ending].
  rewrite H. split; reflexivity.
Qed.

(** C9: [processDataLine] returns normally on every line; when the trimmed
    payload is empty, is [[DONE]], or does not parse, [collected] is left as
    it was; and the consumer of a stream that closes always runs to its end. *)
Theorem processDataLine_tolerant (line : jsstring) (collected : list Citation) :
  (exists c, processDataLine line collected = Normal c)
  /\ (trim line = [] \/ trim line = lit "[DONE]"
      \/ (exists e, JSON_parse (trim line) = Throw e) ->
      processDataLine line collected = Normal collected)
  /\ (forall (cs : list (list byte)) (d : TextDecoder),
        exists st posted, consumeStream (mkStream cs Closed) d = Normal (st, posted)).
Proof.
  split; [|split].
  - rewrite processDataLine_cases. eauto.
  - rewrite processDataLine_cases. intros [H | [H | [e H]]].
    + now rewrite H.
    + now rewrite H.
    + rewrite H. destruct (trim line); [reflexivity|].
      now destruct (streq _ _).
  - intros cs d. rewrite consumeStream_lines. cbn [ending].
    destruct (split_lines _) as [ls tail]. simpl. eauto.
Qed.

(** C5, amended: when a shadow stream completes and its deduplicated citation
    list is not empty, the sink becomes exactly that list, whatever it held
    before; the list is the first-occurrence deduplication of the collected
    citations and no two of its entries share a url. In particular a later
    such stream supersedes an earlier one entirely. *)
Theorem completed_stream_replaces_sink (stream : Stream) (before : list value)
  (st : Observation) (posted : option value) :
  consumeStream stream TextDecoder_new = Normal (st, posted) ->
  unique_by_url (collected st) [] <> [] ->
  sink_after_stream stream before
  = List.map citation_object (unique_by_url (collected st) [])
  /\ unique_by_url (collected st) [] = dedup_first_wins (collected st)
  /\ NoDup (List.map url (unique_by_url (collected st) []))
  /\ (forall earlier : Stream,
        sink_after_stream stream (sink_after_stream earlier before)
        = List.map citation_object (unique_by_url (collected st) [])).
Proof.
  intros Hrun Hne.
  assert (Hposted : posted = Some (citations_message (unique_by_url (collected st) []))).
  { unfold consumeStream in Hrun. rewrite read_concat in Hrun.
    destruct (decode _ _) as [d' text].
    destruct (processBuffer _) as [st'|e]; [|discriminate].
    simpl in Hrun. destruct (ending stream); [|discriminate].
    injection Hrun as Hst Hp. subst st' posted. unfold dispatch.
    destruct (unique_by_url (collected st) []) as [|c u]; [congruence | reflexivity]. }
  assert (Hsink : forall b, sink_after_stream stream b
                            = List.map citation_object (unique_by_url (collected st) [])).
  { intros b. unfold sink_after_stream. rewrite Hrun, Hposted. reflexivity. }
  repeat split.
  - apply Hsink.
  - apply unique_by_url_dedup.
  - rewrite unique_by_url_dedup. apply dedup_NoDup.
  - intros earlier. apply Hsink.
Qed.

(** C10: when a shadow stream completes with an empty deduplicated citation
    list, nothing is posted and the sink, hence the answer to a query, is what
    it was before. *)
Theorem empty_result_keeps_sink (stream : Stream) (before : list value)
  (st : Observation) (posted : option value) :
  consumeStream stream TextDecoder_new = Normal (st, posted) ->
  unique_by_url (collected st) [] = [] ->
  posted = None
  /\ sink_after_stream stream before = before
  /\ ContentScript.GET_CITATIONS (sink_after_stream stream before) = before.
Proof.
  intros Hrun Hempty.
  assert (Hposted : posted = None).
  { unfold consumeStream in Hrun. rewrite read_concat in Hrun.
    destruct (decode _ _) as [d' text].
    destruct (processBuffer _) as [st'|e]; [|discriminate].
    simpl in Hrun. destruct (ending stream); [|discriminate].
    injection Hrun as Hst Hp. subst st' posted. unfold dispatch.
    now rewrite Hempty. }
  assert (Hsink : sink_after_stream stream before = before).
  { unfold sink_after_stream. now rewrite Hrun, Hposted. }
  repeat split; [exact Hposted | exact Hsink |].
  unfold ContentScript.GET_CITATIONS. exact Hsink.
Qed.

End Claims.

(** ** The wrapper *)

Section WrapperClaims.
Context {P : Platform}.
Import Inject.
Variable originalFetch : FetchInput -> option RequestInit -> completion Response.

Lemma isConversation_spec (input : FetchInput) (init : option RequestInit) :
  isConversation input init = true <->
  contains (getRequestUrl input init) CONVERSATION_PATH
  /\ contains (getRequestUrl input init) CONVERSATION_SUBPATH
  /\ getRequestMethod input init = lit "POST".
Proof.
  unfold isConversation, contains. rewrite <- !includes_spec, <- streq_eq.
  destruct (getRequestUrl input init) as [|c u] eqn:Hu.
  - split; [discriminate|]. intros [H _]. discriminate.
  - rewrite !andb_true_iff. tauto.
Qed.

(** A rejection of the original call reaches the caller unchanged. *)
Lemma rejection_passes_through (input : FetchInput) (init : option RequestInit)
  (e : js_error) :
  originalFetch input init = Throw e ->
  fetch originalFetch input init = passed_through (Throw e).
Proof.
  intros H. unfold fetch. rewrite H. now destruct (negb _).
Qed.

(** C8, amended: for a string as first argument, the call is in scope
    exactly when that string contains [/backend-api/] and [conversation]
    anywhere in it and [init.method] is given, not empty, and [POST] once
    upper-cased; for a [Request] as first argument, exactly when its [url]
    contains both and its own [method] is [POST], [init] playing no part;
    for a [URL] object as first argument, never.
    A call out of scope returns what the original [fetch] returns: no stream
    is handed to [consumeStream], no stream is locked, nothing is posted and
    the sink is left as it was. *)
Theorem in_scope_by_resolved_text_and_method (init : option RequestInit) :
  (forall s,
     isConversation (InputString s) init = true <->
     contains s (lit "/backend-api/")
     /\ contains s (lit "conversation")
     /\ exists c m, init = Some (mkInit (Some (c :: m)))
                    /\ toUpperCase (c :: m) = lit "POST")
  /\ (forall r init',
        (isConversation (InputRequest r) init = true <->
         contains (req_url r) (lit "/backend-api/")
         /\ contains (req_url r) (lit "conversation")
         /\ req_method r = lit "POST")
        /\ isConversation (InputRequest r) init
           = isConversation (InputRequest r) init')
  /\ (forall href, isConversation (InputURL href) init = false)
  /\ (forall input,
        isConversation input init = false ->
        returned (fetch originalFetch input init) = originalFetch input init
        /\ shadow (fetch originalFetch input init) = None
        /\ locks (fetch originalFetch input init) = []
        /\ notification (fetch originalFetch input init) = None
        /\ forall sink, page_fetch originalFetch input init sink
                        = (originalFetch input init, sink)).
Proof.
  split; [|split; [|split; [reflexivity|]]].
  - intros s. rewrite isConversation_spec. cbn [getRequestUrl getRequestMethod].
    split.
    + intros (H1 & H2 & Hm). split; [exact H1|]. split; [exact H2|].
      destruct init as [[[[|c m]|]]|]; try discriminate Hm.
      exists c, m. split; [reflexivity | exact Hm].
    + intros (H1 & H2 & c & m & -> & Hm). cbn [init_method]. auto.
  - intros r init'. split; [|reflexivity].
    rewrite isConversation_spec. cbn [getRequestUrl getRequestMethod].
    split.
    + intros (H1 & H2 & Hm). split; [exact H1|]. split; [exact H2|].
      destruct (req_method r) as [|c m]; [discriminate Hm | exact Hm].
    + intros (H1 & H2 & Hm). rewrite Hm. auto.
  - intros input H.
    assert (Hf : fetch originalFetch input init
                 = passed_through (originalFetch input init)).
    { unfold fetch. now rewrite H. }
    unfold notification, page_fetch. rewrite Hf. repeat split.
Qed.

(** C1, amended: when the original call resolves with a response, the
    wrapped call resolves with a response of the same status, status text
    and headers, from whose body the caller reads the very stream the
    original body yields. Out of scope, and whenever nothing is teed, it is
    the original response itself; when the body is teed it is a new
    response over the first branch of the tee, the second branch going to
    the shadow consumer, and its url, redirected flag and type are those of
    a constructed response (empty, false, default), not the original's. *)
Theorem teed_response_keeps_status_headers_and_body (input : FetchInput)
  (init : option RequestInit) (response : Response) :
  originalFetch input init = Normal response ->
  Response_wf response ->
  exists returned_response,
    returned (fetch originalFetch input init) = Normal returned_response
    /\ status returned_response = status response
    /\ statusText returned_response = statusText response
    /\ headers returned_response = headers response
    /\ page_reads (fetch originalFetch input init) = Normal (body response)
    /\ (isConversation input init = false -> returned_response = response)
    /\ (shadow (fetch originalFetch input init) = None ->
        returned_response = response)
    /\ (forall s,
          shadow (fetch originalFetch input init) = Some s ->
          body response = Some s
          /\ page_body (fetch originalFetch input init) = Some (Branch1 OriginalBody)
          /\ resp_url returned_response = []
          /\ redirected returned_response = false
          /\ resp_type returned_response = RtDefault).
Proof.
  intros Horig Hwf.
  assert (Hpass : forall r, r = passed_through (Normal response) ->
            returned r = Normal response
            /\ page_reads r = Normal (body response)
            /\ shadow r = None).
  { intros r ->. unfold page_reads, passed_through, has_body. cbn.
    destruct (body response); repeat split. }
  unfold fetch. rewrite Horig.
  destruct (isConversation input init) eqn:Hscope; cbn [negb].
  2:{ destruct (Hpass _ eq_refl) as (Hr & Hp & Hs).
      exists response. rewrite Hs. repeat split; auto; discriminate. }
  destruct (negb (ok response) || negb (has_body response)) eqn:Hgate.
  { destruct (Hpass _ eq_refl) as (Hr & Hp & Hs).
    exists response. rewrite Hs. repeat split; auto; discriminate. }
  destruct (negb (includes _ (lit "text/event-stream"))
            && negb (includes _ (lit "text/plain"))).
  { destruct (Hpass _ eq_refl) as (Hr & Hp & Hs).
    exists response. rewrite Hs. repeat split; auto; discriminate. }
  apply orb_false_iff in Hgate as [Hok Hbody].
  apply negb_false_iff in Hok. apply negb_false_iff in Hbody.
  unfold has_body in Hbody. destruct (body response) as [b|] eqn:Hb; [|discriminate].
  cbn [tee getReader is_locked existsb same_object orb object_stream].
  unfold page_reads. cbn [returned shadow page_body locks is_locked existsb
                          same_object orb].
  unfold Response_new.
  unfold ok in Hok. apply andb_true_iff in Hok as [Hlo Hhi].
  apply Z.leb_le in Hlo, Hhi.
  replace ((200 <=? status response) && (status response <=? 599)) with true
    by (symmetry; apply andb_true_iff; split; apply Z.leb_le; lia).
  cbn [negb].
  destruct (null_body_status (status response)) eqn:Hnull.
  { specialize (Hwf Hnull). congruence. }
  cbn [orb]. eexists. split; [reflexivity|]. cbn [bind status statusText headers body
                                                 resp_url redirected resp_type].
  do 4 (split; [reflexivity|]).
  split; [discriminate|]. split; [discriminate|].
  intros teed Hs. repeat split. exact Hs.
Qed.

End WrapperClaims.

(** ** The classifier *)

Section ClassifierClaims.
Context {P : Platform}.


(** C7: the popup's copy and the content script's copy of
    [detectServiceFromUrl] give the same result on every input, and so do
    the service keys their callers derive from it. *)
Theorem classifier_copies_agree (url : option jsstring) :
  Popup.detectServiceFromUrl url = ContentScript.detectServiceFromUrl url
  /\ Popup.service_key url = ContentScript.GET_SERVICE url.
Proof. split; reflexivity. Qed.

End ClassifierClaims.

(* ===================================================================== *)
(** * The claims on concrete inputs *)
(* ===================================================================== *)

(** Two chunkings of [two_events], the second split in the middle of the
    first line and again in the middle of the last. *)
Lemma chunking_does_not_matter_witness :
  List.concat [two_events]
  = List.concat [firstn 9 two_events; firstn 12 (skipn 9 two_events);
                 skipn 21 two_events]
  /\ Inject.lines (final_state (run (mkStream [two_events] Closed)))
     = [quoted "data: {'a':1}"; []; lit "data: [DONE]"]
  /\ run (mkStream [two_events] Closed)
     = run (mkStream [firstn 9 two_events; firstn 12 (skipn 9 two_events);
                      skipn 21 two_events] Closed).
Proof.
  split; [reflexivity|]. split; [reflexivity|].
  exact (proj1 (chunking_does_not_matter (P := sample_platform)
                  [two_events]
                  [firstn 9 two_events; firstn 12 (skipn 9 two_events);
                   skipn 21 two_events]
                  Closed TextDecoder_new eq_refl)).
Defined.

(** The sentinel and a line that does not parse leave [collected] alone. *)
Lemma processDataLine_tolerant_witness :
  Inject.processDataLine (P := sample_platform) (lit " [DONE] ") [] = Normal []
  /\ Inject.processDataLine (P := sample_platform) (lit "{oops") [] = Normal [].
Proof.
  split.
  - apply (proj1 (proj2 (processDataLine_tolerant (P := sample_platform)
                           (lit " [DONE] ") []))).
    right. left. reflexivity.
  - apply (proj1 (proj2 (processDataLine_tolerant (P := sample_platform)
                           (lit "{oops") []))).
    right. right. exists SyntaxError. reflexivity.
Defined.

(** The sink holds the citation of an earlier stream; the footnote stream
    completes; the sink then holds a and b, once each, and nothing else. *)
Lemma completed_stream_replaces_sink_witness :
  sink_after_stream (P := sample_platform) footnote_stream sink_c
  = [Inject.citation_object
       (mkCitation (lit "https://a.example") (JString (lit "A")) (JString []));
     Inject.citation_object
       (mkCitation (lit "https://b.example") (JString (lit "B")) (JString []))].
Proof.
  refine (eq_trans
            (proj1 (completed_stream_replaces_sink (P := sample_platform)
                      footnote_stream sink_c
                      (final_state (run footnote_stream))
                      (final_message (run footnote_stream)) eq_refl _))
            eq_refl).
  vm_compute. discriminate.
Defined.

(** C5, counterexample: the sink holds the citation of an earlier stream; a
    stream with no citation completes; the sink still holds the earlier
    citation, not the empty deduplicated list of the completed stream. *)
Lemma sink_kept_on_empty_completion :
  ~ sink_replaced_on_every_completion (P := sample_platform).
Proof.
  intros H.
  specialize (H plain_stream sink_c (final_state (run plain_stream))
                (final_message (run plain_stream)) eq_refl).
  vm_compute in H. discriminate.
Qed.

(** The sink holds the citation of an earlier stream; a stream with no
    citation completes; nothing is posted and the sink is as before. *)
Lemma empty_result_keeps_sink_witness :
  final_message (run plain_stream) = None
  /\ sink_after_stream (P := sample_platform) plain_stream sink_c = sink_c
  /\ ContentScript.GET_CITATIONS
       (sink_after_stream (P := sample_platform) plain_stream sink_c) = sink_c.
Proof.
  exact (empty_result_keeps_sink (P := sample_platform) plain_stream sink_c
           (final_state (run plain_stream)) (final_message (run plain_stream))
           eq_refl eq_refl).
Defined.

(** C2, on the code: a stream whose only line has no newline at its end
    closes with the line still in the buffer, nothing extracted, nothing
    collected and nothing posted; the same line followed by a newline is
    extracted, mined and posted. *)
Lemma unterminated_last_line_is_dropped :
  run (mkStream [ascii_bytes items_line] Closed)
  = Normal (Inject.mkObs items_line [] [], None)
  /\ run (mkStream [ascii_bytes (items_line ++ [NL])] Closed)
     = Normal (Inject.mkObs []
                 [mkCitation (lit "https://a.example") (JString (lit "A")) (JString [])]
                 [items_line],
               Some (Inject.citations_message
                       [mkCitation (lit "https://a.example") (JString (lit "A"))
                                   (JString [])])).
Proof. split; vm_compute; reflexivity. Qed.

(** A [POST] with the segments in the query only is in scope; a [GET] on the
    conversation endpoint is not, and passes through. *)
Lemma in_scope_by_resolved_text_and_method_witness :
  Inject.isConversation (P := sample_platform) (InputString query_url) POST_init = true
  /\ Inject.isConversation (P := sample_platform) (InputString conversation_url) get_init
     = false
  /\ Inject.returned (Inject.fetch (P := sample_platform) sample_fetch
                        (InputString conversation_url) get_init)
     = Normal event_stream_response
  /\ Inject.shadow (Inject.fetch (P := sample_platform) sample_fetch
                      (InputString conversation_url) get_init) = None.
Proof.
  split; [reflexivity|]. split; [reflexivity|].
  destruct (proj2 (proj2 (proj2 (in_scope_by_resolved_text_and_method
                                   (P := sample_platform) sample_fetch get_init)))
              (InputString conversation_url) eq_refl)
    as (Hr & Hs & _).
  split; [exact Hr | exact Hs].
Defined.

(** C8, counterexample: a [POST] to [https://chatgpt.com/?next=/backend-api/conversation]
    is in scope for the wrapper although the path of that address is [/]
    and holds neither segment. *)
Lemma query_segments_put_a_call_in_scope :
  ~ in_scope_by_path_and_method (P := sample_platform).
Proof.
  intros H.
  destruct (proj1 (H (InputString query_url) POST_init) eq_refl) as (Hpath & _).
  apply includes_spec in Hpath. vm_compute in Hpath. discriminate.
Qed.

(** A teed call: the caller gets a new response with the status, status
    text and headers of the original one, and reads the original stream
    from its body. *)
Lemma teed_response_keeps_status_headers_and_body_witness :
  sample_fetch (InputString conversation_url) post_init = Normal event_stream_response
  /\ Inject.shadow (Inject.fetch (P := sample_platform) sample_fetch
                      (InputString conversation_url) post_init)
     = Some footnote_stream
  /\ Inject.page_reads (Inject.fetch (P := sample_platform) sample_fetch
                          (InputString conversation_url) post_init)
     = Normal (Some footnote_stream)
  /\ exists r,
       Inject.returned (Inject.fetch (P := sample_platform) sample_fetch
                          (InputString conversation_url) post_init) = Normal r
       /\ status r = 200
       /\ statusText r = lit "OK"
       /\ headers r = headers event_stream_response.
Proof.
  split; [reflexivity|]. split; [reflexivity|].
  destruct (teed_response_keeps_status_headers_and_body (P := sample_platform)
              sample_fetch (InputString conversation_url) post_init
              event_stream_response
              eq_refl (fun H => False_ind _ (Bool.diff_false_true H)))
    as (r & Hr & Hs & Ht & Hh & Hp & _).
  split; [exact Hp|]. exists r. repeat split; assumption.
Defined.

(** C1, counterexample: the response of a teed call is not the original
    one: the original has the address of the conversation endpoint as url
    and the type basic, the response handed to the caller has an empty url
    and the type default. *)
Lemma teed_response_is_a_new_response :
  ~ wrapped_response_is_the_original (P := sample_platform).
Proof.
  intros H.
  specialize (H sample_fetch (InputString conversation_url) post_init
                event_stream_response eq_refl
                (fun E => False_ind _ (Bool.diff_false_true E))).
  vm_compute in H. discriminate.
Qed.


(* ===================================================================== *)
(** * The rest of the code: definitions *)
(* ===================================================================== *)

(** ** The content script's answers to the popup *)

Module ContentRuntime.
Section WithPlatform.
Context {P : Platform}.

(** What the listener on [chrome.runtime.onMessage] passes to [sendResponse]. *)
Inductive Reply : Type :=
| ReplyService (service pageUrl : jsstring)    (* [{ service, pageUrl }] *)
| ReplyCitations (sources : list value).       (* [{ sources }] *)

(** The listener, on a message of type [type] when the page is at [href] and
    the script holds [lastCitations]; [None] when it does not answer. *)
Definition onMessage (type href : jsstring) (lastCitations : list value)
  : completion (option Reply) :=
  if streq type (lit "GET_SERVICE") then
    let pageUrl := href in
    bind (ContentScript.detectServiceFromUrl (Some pageUrl)) (fun service =>
      Normal (Some (ReplyService
                      (match service with
                       | Some (c :: k) => c :: k
                       | _ => lit "unknown"
                       end)
                      pageUrl)))
  else if streq type (lit "GET_CITATIONS") then
    Normal (Some (ReplyCitations lastCitations))
  else Normal None.

(** [lastCitations] after the [message] events of a list, in order. *)
Definition after_events (events : list MessageEvent) (lastCitations : list value)
  : list value :=
  List.fold_left (fun last event => ContentScript.on_message event last)
                 events lastCitations.

End WithPlatform.
End ContentRuntime.

(** ** The popup's rendering *)

Module PopupUI.
Section WithPlatform.
Context {P : Platform}.

Definition ELLIPSIS : jsstring := [8230%N].   (* U+2026 *)
Definition EM_DASH : jsstring := [8212%N].    (* U+2014 *)

(** [truncateUrl]; the argument is [None] for [undefined]. *)
Definition truncateUrl (url : option jsstring) : jsstring :=
  let max := 52 in
  match url with
  | None | Some [] => EM_DASH
  | Some (c :: u) =>
      if Z.of_nat (List.length (c :: u)) <=? max then c :: u
      else slice (c :: u) 0 (max - 3) ++ ELLIPSIS
  end.

(** What [names[serviceKey] ?? names.unknown] evaluates to: a display name,
    or, for a key that [names] inherits from [Object.prototype], the
    inherited member. *)
Inductive Shown : Type :=
| Text (s : jsstring)
| InheritedMember (key : jsstring).

(** The own properties of the object literal [names]. *)
Definition names : list (jsstring * jsstring) :=
  [(lit "chatgpt", lit "ChatGPT");
   (lit "claude", lit "Claude");
   (lit "gemini", lit "Gemini");
   (lit "perplexity", lit "Perplexity");
   (lit "unknown", lit "Unknown / Not supported")].

(** The property names of [Object.prototype]. *)
Definition Object_prototype_keys : list jsstring :=
  [lit "constructor"; lit "__defineGetter__"; lit "__defineSetter__";
   lit "hasOwnProperty"; lit "__lookupGetter__"; lit "__lookupSetter__";
   lit "isPrototypeOf"; lit "propertyIsEnumerable"; lit "toString";
   lit "valueOf"; lit "__proto__"; lit "toLocaleString"].

Definition prettyServiceName (serviceKey : jsstring) : Shown :=
  match table_lookup serviceKey names with
  | Some name => Text name
  | None =>
      if existsb (streq serviceKey) Object_prototype_keys
      then InheritedMember serviceKey
      else Text (lit "Unknown / Not supported")
  end.

(** The elements the popup writes: [#service-name], [#tab-url], [#status]
    and the class [hidden] of [#refresh-hint]. The citations section is not
    part of it. *)
Record View : Type := mkView {
  service_name : Shown;        (* [serviceEl.textContent] *)
  url_text : jsstring;         (* [urlEl.textContent] *)
  url_title : jsstring;        (* [urlEl.title] *)
  status_text : jsstring;      (* [statusEl.textContent] *)
  status_class : jsstring;     (* [statusEl.className] *)
  refresh_hint_hidden : bool
}.

Definition setStatus (kind text : jsstring) (v : View) : View :=
  mkView (service_name v) (url_text v) (url_title v)
         text (lit "status " ++ kind) (refresh_hint_hidden v).

Definition setService (key : jsstring) (v : View) : View :=
  mkView (prettyServiceName key) (url_text v) (url_title v)
         (status_text v) (status_class v) (refresh_hint_hidden v).

(** [x || y] on strings. *)
Definition or_else (x y : jsstring) : jsstring :=
  match x with [] => y | _ => x end.

Definition setUrl (url fullUrl : jsstring) (v : View) : View :=
  mkView (service_name v)
         (truncateUrl (Some (or_else url EM_DASH)))
         (or_else fullUrl (or_else url []))
         (status_text v) (status_class v) (refresh_hint_hidden v).

(** [refreshHint.classList.add('hidden')] and [.remove('hidden')] *)
Definition setHint (hidden : bool) (v : View) : View :=
  mkView (service_name v) (url_text v) (url_title v)
         (status_text v) (status_class v) hidden.

(** A tab as the popup reads it: [None] is [undefined]. *)
Record Tab : Type := mkTab {
  tab_id : option Z;
  tab_url : option jsstring
}.

(** [service || 'unknown'] *)
Definition key_or_unknown (service : option jsstring) : jsstring :=
  match service with
  | Some (c :: k) => c :: k
  | _ => lit "unknown"
  end.

Definition renderFallback (tab : Tab) (v : View) : completion View :=
  let url := match tab_url tab with Some u => u | None => [] end in
  bind (Popup.detectServiceFromUrl (Some url)) (fun service =>
    let v := setService (key_or_unknown service) v in
    let v := setUrl url url v in
    match service with
    | Some (_ :: _) =>
        let v := setStatus (lit "fallback")
                   (lit "Fallback mode " ++ EM_DASH ++ lit " refresh this tab") v in
        Normal (setHint false v)
    | _ =>
        let v := setStatus (lit "unsupported") (lit "Open a supported chat site") v in
        Normal (setHint true v)
    end).

Definition renderFromContentScript (service pageUrl : jsstring) (v : View) : View :=
  let v := setService service v in
  let v := setUrl pageUrl pageUrl v in
  let isSupported :=
    match service with
    | [] => false
    | _ => negb (streq service (lit "unknown"))
    end in
  setStatus (if isSupported then lit "detected" else lit "unsupported")
            (if isSupported then lit "Detected" else lit "Open a supported chat site")
            v.

(** The answer to [GET_SERVICE] as the popup reads it. *)
Record ServiceResponse : Type := mkServiceResponse {
  service : jsstring;
  pageUrl : jsstring
}.

(** [init], given the result of [chrome.tabs.query] and the answer to
    [GET_SERVICE] ([None] when [chrome.runtime.lastError] is set or there is
    no response): the view once all callbacks have run. *)
Definition init (tabs : list Tab) (response : option ServiceResponse) (v : View)
  : completion View :=
  let v := setStatus (lit "pending") (lit "Checking" ++ ELLIPSIS) v in
  let v := setService (lit "unknown") v in
  let v := setUrl [] [] v in
  let v := setHint true v in
  let no_tab := setStatus (lit "unsupported") (lit "Open a supported chat site") v in
  match tabs with
  | [] => Normal no_tab
  | tab :: _ =>
      match tab_id tab with
      | None | Some 0 => Normal no_tab
      | Some _ =>
          bind (Popup.detectServiceFromUrl (tab_url tab)) (fun fallbackService =>
            let v := setService (key_or_unknown fallbackService) v in
            let url := match tab_url tab with Some u => u | None => [] end in
            let v := setUrl url url v in
            match response with
            | None => renderFallback tab v
            | Some r =>
                let v := setHint true v in
                Normal (renderFromContentScript (service r) (pageUrl r) v)
            end)
      end
  end.

(** One element of [list.map(s => ({ url: s.url || '', ... }))]: reading a
    property of [null] throws. *)
Definition copy_source (s : value) : completion value :=
  match s with
  | JNull => Throw TypeError
  | _ =>
      Normal (JObject [(lit "url", or_empty (get s (lit "url")));
                       (lit "title", or_empty (get s (lit "title")));
                       (lit "attribution", or_empty (get s (lit "attribution")))])
  end.

Fixpoint map_sources (l : list value) : completion (list value) :=
  match l with
  | [] => Normal []
  | s :: rest =>
      bind (copy_source s) (fun o =>
      bind (map_sources rest) (fun os => Normal (o :: os)))
  end.

(** [renderCitations], as far as [currentCitations] goes: kept when the
    service is not [chatgpt], else replaced by the mapped list. *)
Definition renderCitations_currentCitations (service : jsstring)
  (sources currentCitations : list value) : completion (list value) :=
  if negb (streq service (lit "chatgpt")) then Normal currentCitations
  else map_sources sources.

End WithPlatform.
End PopupUI.

(** ** Definitions used by the further statements *)

(** A [title] or [attribution] as the miner leaves it: the empty string or
    a truthy value. *)
Definition defaulted (x : value) : Prop := x = JString [] \/ truthy x = true.

Definition citation_defaulted (c : Citation) : Prop :=
  defaulted (title c) /\ defaulted (attribution c).

Definition option_list {A} (o : option A) : list A :=
  match o with Some a => [a] | None => [] end.

(** [response.headers.get('content-type') || ''] *)
Definition content_type_of (r : Response) : jsstring :=
  match Headers_get (headers r) (lit "content-type") with
  | Some v => v
  | None => []
  end.

(** The sources a [message] event makes the listener store, if any. *)
Definition accepted_sources (event : MessageEvent) : option (list value) :=
  if source_is_window event && truthy (data event) then
    match get (data event) (lit "type"), get (data event) (lit "sources") with
    | Some (JString t), Some (JArray sources) =>
        if streq t (lit "AICredibilityCitations") then Some sources else None
    | _, _ => None
    end
  else None.

(** The sources of the last event of a list that the listener stores. *)
Fixpoint last_accepted (events : list MessageEvent) : option (list value) :=
  match events with
  | [] => None
  | e :: rest =>
      match last_accepted rest with
      | Some s => Some s
      | None => accepted_sources e
      end
  end.

(** Host name, display name: the service table followed by [names]. *)
Definition display_table : list (jsstring * jsstring) :=
  [(lit "chatgpt.com", lit "ChatGPT");
   (lit "chat.openai.com", lit "ChatGPT");
   (lit "claude.ai", lit "Claude");
   (lit "gemini.google.com", lit "Gemini");
   (lit "perplexity.ai", lit "Perplexity")].

Section FurtherDefinitions.
Context {P : Platform}.

(** The display name of the host of a url, by the table. *)
Definition display_by_table (url : option jsstring) : jsstring :=
  match url with
  | Some (c :: u) =>
      match URL_hostname (c :: u) with
      | Normal hostname =>
          match table_lookup (toLowerCase hostname) display_table with
          | Some name => name
          | None => lit "Unknown / Not supported"
          end
      | Throw _ => lit "Unknown / Not supported"
      end
  | _ => lit "Unknown / Not supported"
  end.

(** The answer to [GET_SERVICE] the popup gets from the content script of a
    page at [href]. *)
Definition service_response (href : jsstring) (lastCitations : list value)
  : option PopupUI.ServiceResponse :=
  match ContentRuntime.onMessage (lit "GET_SERVICE") href lastCitations with
  | Normal (Some (ContentRuntime.ReplyService s p)) =>
      Some (PopupUI.mkServiceResponse s p)
  | _ => None
  end.

End FurtherDefinitions.

(* ===================================================================== *)
(** * The rest of the code: properties *)
(* ===================================================================== *)

(** ** The miner *)

(** X1: the miner only appends to [found]: what was there stays, in place,
    and what is added does not depend on it. *)
Theorem miner_only_appends (v : value) (found : list Citation) :
  extractSourcesFromPayload v found = found ++ extractSourcesFromPayload v []
  /\ firstn (List.length found) (extractSourcesFromPayload v found) = found.
Proof.
  split; [apply extract_app|].
  rewrite extract_app, firstn_app, Nat.sub_diag, firstn_all. simpl.
  apply app_nil_r.
Qed.

Lemma push_sources_flat_map (arr : list value) (found : list Citation) :
  push_sources arr found
  = found ++ List.flat_map (fun s => option_list (source_entry s)) arr.
Proof.
  revert found. induction arr as [|s arr IH]; intros found; simpl.
  - now rewrite app_nil_r.
  - rewrite IH. destruct (source_entry s) as [c|]; simpl.
    + now rewrite <- app_assoc.
    + reflexivity.
Qed.

(** X2: the loop over a [sources] or [items] array adds one citation, in
    order, for each entry that is an object whose [url] is a string, and
    nothing for any other entry (no object, no [url], a [url] that is not a
    string); the citation has that url, and as title and attribution the
    entry's value when truthy, else the empty string. *)
Theorem entries_with_string_url_are_extracted (arr : list value)
  (found : list Citation) :
  push_sources arr found
  = found ++ List.flat_map (fun s => option_list (source_entry s)) arr
  /\ forall s c,
       source_entry s = Some c <->
       exists props u,
         s = JObject props
         /\ lookup (lit "url") props = Some (JString u)
         /\ c = mkCitation u (or_empty (lookup (lit "title") props))
                             (or_empty (lookup (lit "attribution") props)).
Proof.
  split; [apply push_sources_flat_map|].
  intros s c. unfold source_entry. split.
  - intros H. destruct (truthy s); [|discriminate].
    destruct s as [ | b | x | t | elems | props ]; simpl in H; try discriminate.
    destruct (lookup (lit "url") props) as [[ | | | u | | ]|] eqn:Hu;
      try discriminate.
    injection H as <-. now exists props, u.
  - intros (props & u & -> & Hu & ->). simpl. now rewrite Hu.
Qed.

(** X3: an array contributes what its elements contribute, element after
    element, in index order. *)
Theorem array_is_mined_in_order (elems : list value) (found : list Citation) :
  extractSourcesFromPayload (JArray elems) found
  = found ++ List.flat_map (fun x => extractSourcesFromPayload x []) elems.
Proof. rewrite extract_array. apply mine_each_flat_map. Qed.

Lemma or_empty_defaulted (o : option value) : defaulted (or_empty o).
Proof.
  unfold defaulted, or_empty. destruct o as [v|]; [|now left].
  destruct (truthy v) eqn:E; [now right | now left].
Qed.

Lemma push_sources_defaulted (arr : list value) (found : list Citation) :
  Forall citation_defaulted found -> Forall citation_defaulted (push_sources arr found).
Proof.
  revert found. induction arr as [|s arr IH]; intros found Hf; simpl; [exact Hf|].
  apply IH. destruct (source_entry s) as [c|] eqn:Hs; [|exact Hf].
  apply Forall_app. split; [exact Hf|]. constructor; [|constructor].
  unfold source_entry in Hs. destruct (truthy s); [|discriminate].
  destruct (get s (lit "url")) as [[ | | | u | | ]|]; try discriminate.
  injection Hs as <-. split; apply or_empty_defaulted.
Qed.

Lemma extract_defaulted (v : value) (found : list Citation) :
  Forall citation_defaulted found ->
  Forall citation_defaulted (extractSourcesFromPayload v found).
Proof.
  revert found.
  induction v as [ | b | x | s | elems IH | props IH ] using value_ind;
    intros found Hf; try exact Hf.
  - rewrite extract_array. unfold mine_each. revert found Hf.
    induction IH as [|e l He _ IHl]; intros found Hf; simpl; auto.
  - rewrite extract_object. destruct (footnote_sources props) as [srcs|].
    + now apply push_sources_defaulted.
    + set (acc := match items_array props with
                  | Some items => push_sources items found
                  | None => found
                  end).
      assert (Hacc : Forall citation_defaulted acc).
      { unfold acc. destruct (items_array props);
          [now apply push_sources_defaulted | exact Hf]. }
      clearbody acc. unfold mine_keys. revert acc Hacc.
      induction IH as [|kv l He _ IHl]; intros acc Hacc; simpl; auto.
Qed.

(** X4: in every citation the miner produces, [title] and [attribution] are
    each the empty string or a truthy value: never [null], [false], [0] or
    missing. *)
Theorem mined_fields_are_defaulted (v : value) :
  Forall (fun c => (title c = JString [] \/ truthy (title c) = true)
                   /\ (attribution c = JString [] \/ truthy (attribution c) = true))
         (extractSourcesFromPayload v []).
Proof.
  exact (extract_defaulted v [] (Forall_nil _)).
Qed.

(** ** The line loop and the shadow consumer *)

Section DecoderProperties.
Context {P : Platform}.
Import Inject.

(** X6: [processBuffer] always returns, and loses no text: the lines it cut
    off, each followed by a newline, followed by what it leaves in the
    buffer, spell the buffer it started from; no line and no rest holds a
    newline; the lines went to the loop body in order. *)
Theorem processBuffer_keeps_the_text (st : Observation) :
  exists st' ls,
    processBuffer st = Normal st'
    /\ buffer st = List.concat (List.map (fun l => l ++ [NL]) ls) ++ buffer st'
    /\ ~ In NL (buffer st')
    /\ Forall (fun l => ~ In NL l) ls
    /\ lines st' = lines st ++ ls
    /\ collected st' = List.fold_left handled ls (collected st).
Proof.
  rewrite processBuffer_lines.
  pose proof (split_lines_spec (buffer st)) as Hs.
  destruct (split_lines (buffer st)) as [ls tail].
  destruct Hs as (Ht & Hl & Hn).
  eexists. exists ls. split; [reflexivity|]. cbn [buffer lines collected].
  repeat split; assumption.
Qed.

(** X7: a call of [processBuffer] right after another does nothing. *)
Theorem processBuffer_is_idempotent (st : Observation) :
  bind (processBuffer st) processBuffer = processBuffer st.
Proof.
  destruct (processBuffer_normal st) as [st' H]. rewrite H. cbn [bind].
  apply (processBuffer_twice _ _ H).
Qed.

Lemma fold_handled_data_lines (ls : list jsstring) (c : list Citation) :
  List.fold_left handled ls c
  = List.fold_left
      (fun acc l =>
         match processDataLine (trim (slice_from l 5)) acc with
         | Normal acc' => acc'
         | Throw _ => acc
         end)
      (List.filter (fun l => startsWith l (lit "data:")) ls) c.
Proof.
  revert c. induction ls as [|l ls IH]; intros c; [reflexivity|].
  cbn [List.fold_left List.filter]. rewrite IH.
  unfold handled at 1, handle_line.
  destruct (startsWith l (lit "data:")); reflexivity.
Qed.

(** X8: only the lines that start with [data:] count: the citations a closed
    stream ends with are those of the payloads of its [data:] lines, in
    order; every other line (comments, [event:], [id:], blank lines, a
    [data:] with something before it) changes nothing. *)
Theorem only_data_lines_are_mined (cs : list (list byte)) (d : TextDecoder) :
  exists st posted,
    consumeStream (mkStream cs Closed) d = Normal (st, posted)
    /\ collected st
       = List.fold_left
           (fun acc l =>
              match processDataLine (trim (slice_from l 5)) acc with
              | Normal acc' => acc'
              | Throw _ => acc
              end)
           (List.filter (fun l => startsWith l (lit "data:"))
              (fst (split_lines (snd (decode d (List.concat cs))))))
           [].
Proof.
  rewrite consumeStream_lines. unfold body_bytes. cbn [chunks ending].
  destruct (split_lines _) as [ls tail]. cbn [settle fst].
  eexists. eexists. split; [reflexivity|]. cbn [collected].
  apply fold_handled_data_lines.
Qed.

(** X10: when the shadow stream errors, the consumer's promise rejects with
    that error and nothing is posted, whatever had been collected: the sink
    is as before. *)
Theorem errored_stream_posts_nothing (cs : list (list byte)) (e : js_error)
  (d : TextDecoder) (before : list value) :
  consumeStream (mkStream cs (Errored e)) d = Throw e
  /\ sink_after_stream (mkStream cs (Errored e)) before = before.
Proof.
  assert (H : forall d', consumeStream (mkStream cs (Errored e)) d' = Throw e).
  { intros d'. rewrite consumeStream_lines. cbn [ending].
    destruct (split_lines _). reflexivity. }
  split; [apply H|]. unfold sink_after_stream. now rewrite H.
Qed.

End DecoderProperties.

(** *** Trailing white space *)

Lemma startsWith_snoc (l p : jsstring) (w : N) :
  Forall (fun k => N.eqb k w = false) p ->
  startsWith (l ++ [w]) p = startsWith l p.
Proof.
  revert l. induction p as [|k p IH]; intros l Hp; [reflexivity|].
  inversion Hp as [|? ? Hk Hp']; subst.
  destruct l as [|x l]; simpl.
  - now rewrite Hk.
  - now rewrite IH.
Qed.

Lemma trimStart_snoc (s : jsstring) (w : N) :
  is_white_space w = true ->
  trimStart (s ++ [w])
  = match trimStart s with
    | [] => []
    | t => t ++ [w]
    end.
Proof.
  intros Hw. induction s as [|x s IH]; simpl.
  - now rewrite Hw.
  - destruct (is_white_space x); [exact IH | reflexivity].
Qed.

Lemma trim_snoc (s : jsstring) (w : N) :
  is_white_space w = true -> trim (s ++ [w]) = trim s.
Proof.
  intros Hw. unfold trim, trimEnd. rewrite (trimStart_snoc s w Hw).
  destruct (trimStart s) as [|x t]; [reflexivity|].
  rewrite rev_app_distr. simpl. now rewrite Hw.
Qed.

Lemma white_space_not_in_prefix (w : N) :
  is_white_space w = true ->
  Forall (fun k => N.eqb k w = false) (lit "data:").
Proof.
  intros Hw. unfold lit. simpl.
  repeat (apply Forall_cons; [|]); try apply Forall_nil;
    match goal with
    | |- (?k =? w)%N = false =>
        destruct (N.eqb_spec k w) as [E|E];
        [rewrite <- E in Hw; vm_compute in Hw; discriminate | reflexivity]
    end.
Qed.

(** X9: white space at the end of a line does not count: the line followed
    by one more white-space unit, such as the carriage return of a CRLF line
    end, is handled as the line itself. *)
Theorem trailing_white_space_is_ignored {P : Platform} (line : jsstring) (w : N)
  (collected : list Citation) :
  is_white_space w = true ->
  Inject.handle_line (line ++ [w]) collected = Inject.handle_line line collected.
Proof.
  intros Hw. unfold Inject.handle_line.
  rewrite (startsWith_snoc line (lit "data:") w (white_space_not_in_prefix w Hw)).
  destruct (startsWith line (lit "data:")) eqn:Hs; [|reflexivity].
  apply startsWith_spec in Hs as [post ->].
  rewrite slice_from_app.
  - now rewrite trim_snoc.
  - rewrite length_app. simpl. lia.
Qed.

(** ** The content script *)

Lemma on_message_accepted (event : MessageEvent) (last : list value) :
  ContentScript.on_message event last
  = match accepted_sources event with
    | Some sources => sources
    | None => last
    end.
Proof.
  unfold ContentScript.on_message, accepted_sources.
  destruct (source_is_window event); [|reflexivity].
  destruct (truthy (data event)); [|reflexivity]. cbn [negb orb andb].
  destruct (get (data event) (lit "type")) as [[ | | | t | | ]|]; try reflexivity.
  destruct (get (data event) (lit "sources")) as [[ | | | | srcs | ]|]; try reflexivity.
  destruct (streq t (lit "AICredibilityCitations")); reflexivity.
Qed.

(** X11: after any sequence of [message] events the script holds the
    [sources] array of the last event that came from the window itself, with
    the type [AICredibilityCitations] and an array as [sources]; when there
    was none, it holds what it held at the start. Nothing is merged, and no
    other event changes it. *)
Theorem listener_keeps_last_accepted (events : list MessageEvent)
  (initial : list value) :
  ContentRuntime.after_events events initial
  = match last_accepted events with
    | Some sources => sources
    | None => initial
    end.
Proof.
  unfold ContentRuntime.after_events. revert initial.
  induction events as [|e rest IH]; intros initial; [reflexivity|].
  cbn [List.fold_left last_accepted]. rewrite IH, on_message_accepted.
  destruct (last_accepted rest); reflexivity.
Qed.

Section ClassifierProperties.
Context {P : Platform}.

Lemma content_detect_by_table (url : option jsstring) :
  ContentScript.detectServiceFromUrl url = Normal (classify_by_table url).
Proof.
  destruct url as [[|c u]|]; try reflexivity.
  unfold ContentScript.detectServiceFromUrl, classify_by_table.
  destruct (URL_hostname (c :: u)) as [hostname|e]; [|reflexivity].
  cbn [bind try_catch table_lookup service_table].
  destruct (streq (toLowerCase hostname) (lit "chatgpt.com")); [reflexivity|].
  destruct (streq (toLowerCase hostname) (lit "chat.openai.com")); [reflexivity|].
  destruct (streq (toLowerCase hostname) (lit "claude.ai")); [reflexivity|].
  destruct (streq (toLowerCase hostname) (lit "gemini.google.com")); [reflexivity|].
  destruct (streq (toLowerCase hostname) (lit "perplexity.ai")); reflexivity.
Qed.

(** The keys the table can give. *)
Lemma classify_by_table_keys (url : option jsstring) :
  classify_by_table url = None
  \/ exists key, classify_by_table url = Some key
                 /\ In key [lit "chatgpt"; lit "claude"; lit "gemini"; lit "perplexity"].
Proof.
  destruct url as [[|c u]|]; try (now left).
  unfold classify_by_table.
  destruct (URL_hostname (c :: u)) as [hostname|e]; [|now left].
  cbn [table_lookup service_table].
  repeat match goal with
         | |- context [if ?b then _ else _] =>
             destruct b; [right; eexists; split; [reflexivity | simpl; tauto]|]
         end.
  now left.
Qed.

(** X12: the content script answers [GET_SERVICE] on every page, with the
    address of the page and with one of the five identifiers; the identifier
    is [unknown] exactly when the host of the page is not in the table (or
    the address does not parse). *)
Theorem service_answer_is_an_identifier (href : jsstring) (lastCitations : list value) :
  exists s,
    ContentRuntime.onMessage (lit "GET_SERVICE") href lastCitations
    = Normal (Some (ContentRuntime.ReplyService s href))
    /\ In s [lit "chatgpt"; lit "claude"; lit "gemini"; lit "perplexity";
             lit "unknown"]
    /\ (s = lit "unknown" <-> classify_by_table (Some href) = None).
Proof.
  unfold ContentRuntime.onMessage. cbn [streq lit]. simpl streq.
  rewrite content_detect_by_table. cbn [bind].
  destruct (classify_by_table_keys (Some href)) as [H | (key & H & Hin)]; rewrite H.
  - eexists. split; [reflexivity|]. split; [simpl; tauto | tauto].
  - simpl in Hin.
    destruct Hin as [<- | [<- | [<- | [<- | []]]]];
      (eexists; split; [reflexivity|]; split; [simpl; tauto|];
       split; intros E; discriminate E).
Qed.

End ClassifierProperties.

(** ** The wrapper *)

Section WrapperProperties.
Context {P : Platform}.
Import Inject.
Variable originalFetch : FetchInput -> option RequestInit -> completion Response.

(** X13: when the original call rejects, the wrapped call rejects with the
    same error, in scope or not; no stream is consumed and the sink is left
    as it was. *)
Theorem upstream_rejection_reaches_caller (input : FetchInput)
  (init : option RequestInit) (e : js_error) (sink : list value) :
  originalFetch input init = Throw e ->
  returned (fetch originalFetch input init) = Throw e
  /\ shadow (fetch originalFetch input init) = None
  /\ page_fetch originalFetch input init sink = (Throw e, sink).
Proof.
  intros H. unfold page_fetch.
  rewrite (rejection_passes_through originalFetch input init e H).
  repeat split.
Qed.

Lemma content_type_read (r : Response) :
  match Headers_get (headers r) (lit "content-type") with
  | Some (c :: v) => c :: v
  | _ => []
  end = content_type_of r.
Proof.
  unfold content_type_of.
  destruct (Headers_get (headers r) (lit "content-type")) as [[|c v]|]; reflexivity.
Qed.

(** X14: a stream is handed to the shadow consumer exactly when the call is
    in scope, the original call resolved with a response that is [ok] and
    has a body, and its [content-type] contains [text/event-stream] or
    [text/plain]; the stream is then the body of that response. *)
Theorem body_is_teed_exactly_when (input : FetchInput) (init : option RequestInit)
  (s : Stream) :
  shadow (fetch originalFetch input init) = Some s <->
  isConversation input init = true
  /\ exists r,
       originalFetch input init = Normal r
       /\ ok r = true
       /\ body r = Some s
       /\ (includes (content_type_of r) (lit "text/event-stream") = true
           \/ includes (content_type_of r) (lit "text/plain") = true).
Proof.
  unfold fetch.
  destruct (isConversation input init); cbn [negb].
  2:{ split; [discriminate | intros [H _]; discriminate]. }
  destruct (originalFetch input init) as [r|e].
  2:{ split; [discriminate | intros [_ (r & H & _)]; discriminate]. }
  rewrite content_type_read. unfold has_body.
  destruct (ok r) eqn:Hok; cbn [negb orb].
  2:{ split; [discriminate | intros [_ (r' & H & Hok' & _)]].
      injection H as <-. congruence. }
  destruct (body r) as [b|] eqn:Hb; cbn [negb].
  2:{ split; [discriminate | intros [_ (r' & H & _ & Hb' & _)]].
      injection H as <-. congruence. }
  destruct (includes (content_type_of r) (lit "text/event-stream")) eqn:H1;
    destruct (includes (content_type_of r) (lit "text/plain")) eqn:H2;
    cbn [negb andb tee getReader is_locked existsb same_object orb object_stream
         shadow].
  4:{ split; [discriminate | intros [_ (r' & H & _ & _ & [Hc|Hc])]];
      injection H as <-; congruence. }
  all: split;
    [ intros H; injection H as <-; split; [reflexivity|];
      exists r; repeat split; auto
    | intros [_ (r' & H & _ & Hb' & _)]; injection H as <-; congruence ].
Qed.

End WrapperProperties.

(** ** Deduplication *)

Lemma dedup_first_kept (pre post : list Citation) (c : Citation) :
  ~ In (url c) (List.map url pre) -> In c (dedup_first_wins (pre ++ c :: post)).
Proof.
  induction pre as [|p pre IH]; intros Hn; simpl.
  - now left.
  - right. apply filter_In. split.
    + apply IH. intros H. apply Hn. now right.
    + destruct (streq (url c) (url p)) eqn:E; [|reflexivity].
      apply streq_eq in E. exfalso. apply Hn. left. now symmetry.
Qed.

Lemma filter_length_le {A} (f : A -> bool) (l : list A) :
  (List.length (List.filter f l) <= List.length l)%nat.
Proof.
  induction l as [|x l IH]; simpl; [lia|]. destruct (f x); simpl; lia.
Qed.

Lemma dedup_length_le (l : list Citation) :
  (List.length (dedup_first_wins l) <= List.length l)%nat.
Proof.
  induction l as [|c l IH]; simpl; [lia|].
  pose proof (filter_length_le (fun x => negb (streq (url x) (url c)))
                               (dedup_first_wins l)).
  lia.
Qed.

(** X15: the filter of the [done] branch invents nothing and loses no url:
    each entry it keeps is an entry of the list, each url of the list is the
    url of a kept entry, the entry kept for a url is the first one with that
    url, and the result is no longer than the list. *)
Theorem dedup_keeps_first_of_each_url (l : list Citation) :
  (forall x, In x (Inject.unique_by_url l []) -> In x l)
  /\ (forall x, In x l -> In (url x) (List.map url (Inject.unique_by_url l [])))
  /\ (forall pre c post,
        l = pre ++ c :: post -> ~ In (url c) (List.map url pre) ->
        In c (Inject.unique_by_url l []))
  /\ (List.length (Inject.unique_by_url l []) <= List.length l)%nat.
Proof.
  rewrite unique_by_url_dedup. repeat split.
  - intros x. apply dedup_urls_incl.
  - intros x. apply dedup_covers.
  - intros pre c post -> Hn. now apply dedup_first_kept.
  - apply dedup_length_le.
Qed.

Lemma dedup_distinct (l : list Citation) :
  NoDup (List.map url l) -> dedup_first_wins l = l.
Proof.
  induction l as [|c l IH]; intros Hnd; simpl; [reflexivity|].
  inversion Hnd as [|? ? Hnot Hrest]; subst. rewrite (IH Hrest). f_equal.
  clear IH Hrest Hnd. revert Hnot.
  induction l as [|x l IHl]; intros Hnot; simpl; [reflexivity|].
  destruct (streq (url x) (url c)) eqn:E; simpl.
  - apply streq_eq in E. exfalso. apply Hnot. left. exact E.
  - f_equal. apply IHl. intros H. apply Hnot. now right.
Qed.

(** X16: a list in which no two entries share a url comes out of the filter
    unchanged; so filtering twice is filtering once. *)
Theorem dedup_leaves_distinct_lists_alone (l : list Citation) :
  (NoDup (List.map url l) -> Inject.unique_by_url l [] = l)
  /\ Inject.unique_by_url (Inject.unique_by_url l []) [] = Inject.unique_by_url l [].
Proof.
  split.
  - intros H. rewrite unique_by_url_dedup. now apply dedup_distinct.
  - rewrite !unique_by_url_dedup. apply dedup_distinct, dedup_NoDup.
Qed.

(** ** The popup *)

Section PopupProperties.
Context {P : Platform}.
Import PopupUI.

Lemma truncateUrl_length (url : option jsstring) :
  (1 <= List.length (truncateUrl url) <= 52)%nat.
Proof.
  destruct url as [[|c u]|]; try (simpl; lia).
  unfold truncateUrl. destruct (Z.leb_spec (Z.of_nat (List.length (c :: u))) 52).
  - simpl in *. lia.
  - rewrite slice_0_firstn by lia. rewrite length_app, length_firstn.
    simpl List.length in *. lia.
Qed.

(** X17: the text [truncateUrl] returns is never empty and never longer than
    52 units; an address of 1 to 52 units is returned as it is, a longer one
    as its first 49 units followed by an ellipsis. *)
Theorem truncateUrl_bounds (url : option jsstring) :
  (1 <= List.length (truncateUrl url) <= 52)%nat
  /\ (forall u, url = Some u -> (1 <= List.length u <= 52)%nat -> truncateUrl url = u)
  /\ (forall u, url = Some u -> (52 < List.length u)%nat ->
        truncateUrl url = firstn 49 u ++ ELLIPSIS).
Proof.
  split; [apply truncateUrl_length|]. split.
  - intros u -> Hu. destruct u as [|c u]; [simpl in Hu; lia|].
    unfold truncateUrl.
    destruct (Z.leb_spec (Z.of_nat (List.length (c :: u))) 52); [reflexivity | lia].
  - intros u -> Hu. destruct u as [|c u]; [simpl in Hu; lia|].
    unfold truncateUrl.
    destruct (Z.leb_spec (Z.of_nat (List.length (c :: u))) 52); [lia|].
    now rewrite slice_0_firstn by lia.
Qed.

Lemma popup_detect_by_table (url : option jsstring) :
  Popup.detectServiceFromUrl url = Normal (classify_by_table url).
Proof. exact (content_detect_by_table url). Qed.

Lemma pretty_name_by_table (url : option jsstring) :
  prettyServiceName (key_or_unknown (classify_by_table url))
  = Text (display_by_table url).
Proof.
  destruct url as [[|c u]|]; try reflexivity.
  unfold classify_by_table, display_by_table.
  destruct (URL_hostname (c :: u)) as [hostname|e]; [|reflexivity].
  cbn [table_lookup service_table display_table].
  repeat match goal with
         | |- context [if ?b then _ else _] => destruct b; [reflexivity|]
         end.
  reflexivity.
Qed.

(** X18: the name the popup shows for the key it derives from a tab address
    is the display name of the host of that address (ChatGPT for both
    chatgpt.com and chat.openai.com, Claude, Gemini, Perplexity), and
    [Unknown / Not supported] for every other address; it is never a member
    inherited from [Object.prototype]. *)
Theorem shown_name_follows_the_table (tabUrl : option jsstring) :
  bind (Popup.detectServiceFromUrl tabUrl)
       (fun service => Normal (prettyServiceName (key_or_unknown service)))
  = Normal (Text (display_by_table tabUrl)).
Proof.
  rewrite popup_detect_by_table. cbn [bind]. now rewrite pretty_name_by_table.
Qed.

Lemma classify_default_url (o : option jsstring) :
  classify_by_table (Some (match o with Some u => u | None => [] end))
  = classify_by_table o.
Proof. destruct o as [[|c u]|]; reflexivity. Qed.

Lemma display_default_url (o : option jsstring) :
  display_by_table (Some (match o with Some u => u | None => [] end))
  = display_by_table o.
Proof. destruct o as [[|c u]|]; reflexivity. Qed.

Lemma classified_key_nonempty (url : option jsstring) (k : jsstring) :
  classify_by_table url = Some k -> exists c k', k = c :: k'.
Proof.
  intros H. destruct (classify_by_table_keys url) as [E | (key & E & Hin)].
  - congruence.
  - rewrite E in H. injection H as <-. simpl in Hin.
    destruct Hin as [<- | [<- | [<- | [<- | []]]]]; unfold lit; simpl; eauto.
Qed.

Lemma classified_key_not_unknown (url : option jsstring) (k : jsstring) :
  classify_by_table url = Some k -> streq k (lit "unknown") = false.
Proof.
  intros H. destruct (classify_by_table_keys url) as [E | (key & E & Hin)].
  - congruence.
  - rewrite E in H. injection H as <-. simpl in Hin.
    destruct Hin as [<- | [<- | [<- | [<- | []]]]]; reflexivity.
Qed.

(** X19: with a tab that has an id and no answer from the content script,
    [init] shows the display name of the tab's host; it shows the status
    [fallback] and the refresh hint when that host is in the table, and the
    status [unsupported] with the hint hidden when it is not. The view it
    started from plays no part. *)
Theorem fallback_mode_iff_known_host (tab : Tab) (tabs : list Tab) (id : Z)
  (v0 : View) :
  tab_id tab = Some id -> id <> 0 ->
  exists v,
    init (tab :: tabs) None v0 = Normal v
    /\ service_name v = Text (display_by_table (tab_url tab))
    /\ (1 <= List.length (url_text v) <= 52)%nat
    /\ (classify_by_table (tab_url tab) <> None ->
        status_class v = lit "status fallback" /\ refresh_hint_hidden v = false)
    /\ (classify_by_table (tab_url tab) = None ->
        status_class v = lit "status unsupported" /\ refresh_hint_hidden v = true).
Proof.
  intros Hid Hnz. unfold init. rewrite Hid.
  pose proof (pretty_name_by_table (tab_url tab)) as Hname.
  destruct id as [|p|p]; [contradiction| |];
    (rewrite popup_detect_by_table; cbn [bind];
     unfold renderFallback; rewrite popup_detect_by_table, classify_default_url;
     cbn [bind];
     destruct (classify_by_table (tab_url tab)) as [k|] eqn:Hk;
     [ destruct (classified_key_nonempty _ _ Hk) as (c & k' & ->) | ];
     (eexists; split; [reflexivity|];
      cbn [service_name url_text status_class refresh_hint_hidden
           setHint setStatus setUrl setService];
      split; [exact Hname|];
      split; [apply truncateUrl_length|];
      split; [intros H; try (now elim H); split; reflexivity
             | intros H; try discriminate H; split; reflexivity])).
Qed.

End PopupProperties.

Section PopupSession.
Context {P : Platform}.
Import PopupUI.

Lemma service_response_value (href : jsstring) (lastCitations : list value) :
  service_response href lastCitations
  = Some (mkServiceResponse (key_or_unknown (classify_by_table (Some href))) href).
Proof.
  unfold service_response, ContentRuntime.onMessage.
  replace (streq (lit "GET_SERVICE") (lit "GET_SERVICE")) with true by reflexivity.
  rewrite content_detect_by_table. reflexivity.
Qed.

(** X20: when the content script of a page answers, [init] shows what that
    script found for the address of its page: the display name of the host,
    the address cut to 52 units, the full address as tooltip, the refresh
    hint hidden, and the status [detected] when the host is in the table,
    [unsupported] when it is not. *)
Theorem popup_shows_what_the_content_script_found (tab : Tab) (tabs : list Tab)
  (id : Z) (href : jsstring) (lastCitations : list value) (v0 : View) :
  tab_id tab = Some id -> id <> 0 ->
  exists v,
    init (tab :: tabs) (service_response href lastCitations) v0 = Normal v
    /\ service_name v = Text (display_by_table (Some href))
    /\ url_text v = truncateUrl (Some (or_else href EM_DASH))
    /\ url_title v = href
    /\ refresh_hint_hidden v = true
    /\ (classify_by_table (Some href) <> None ->
        status_class v = lit "status detected" /\ status_text v = lit "Detected")
    /\ (classify_by_table (Some href) = None ->
        status_class v = lit "status unsupported"
        /\ status_text v = lit "Open a supported chat site").
Proof.
  intros Hid Hnz. unfold init. rewrite Hid, service_response_value.
  pose proof (pretty_name_by_table (Some href)) as Hname.
  assert (Htitle : or_else href (or_else href []) = href) by (now destruct href).
  destruct id as [|p|p]; [contradiction| |];
    (rewrite popup_detect_by_table; cbn [bind];
     eexists; split; [reflexivity|];
     unfold renderFromContentScript;
     cbn [service_name url_text url_title status_class status_text
          refresh_hint_hidden setHint setStatus setUrl setService
          service pageUrl];
     split; [exact Hname|]; split; [reflexivity|];
     split; [exact Htitle|]; split; [reflexivity|];
     destruct (classify_by_table (Some href)) as [k|] eqn:Hk;
     [ destruct (classified_key_nonempty _ _ Hk) as (c & k' & ->);
       cbn [key_or_unknown];
       rewrite (classified_key_not_unknown _ _ Hk); cbn [negb];
       split; [intros _; split; reflexivity | intros H; discriminate H]
     | split; [intros H; now elim H | intros _; split; reflexivity] ]).
Qed.

(** X21: whatever the tabs and the answer, [init] returns, and the view it
    leaves does not depend on the view it found: the address shown has 1 to
    52 units, the status is one of [unsupported], [fallback] and [detected]
    (never the [pending] it starts with), and the refresh hint is visible
    only with the status [fallback]. *)
Theorem init_leaves_a_settled_view (tabs : list Tab)
  (response : option ServiceResponse) (v0 v1 : View) :
  init tabs response v0 = init tabs response v1
  /\ exists v,
       init tabs response v0 = Normal v
       /\ (1 <= List.length (url_text v) <= 52)%nat
       /\ In (status_class v)
             [lit "status unsupported"; lit "status fallback"; lit "status detected"]
       /\ (refresh_hint_hidden v = false -> status_class v = lit "status fallback").
Proof.
  split.
  - unfold init. destruct tabs as [|tab tabs]; [reflexivity|].
    destruct (tab_id tab) as [[|p|p]|]; try reflexivity;
      (rewrite popup_detect_by_table; cbn [bind];
       destruct response as [r|]; [reflexivity|];
       unfold renderFallback; rewrite popup_detect_by_table; reflexivity).
  - unfold init. destruct tabs as [|tab tabs].
    { eexists. split; [reflexivity|].
      cbn; repeat split; try lia; try tauto; try discriminate. }
    destruct (tab_id tab) as [[|p|p]|];
      try (eexists; split; [reflexivity|];
           cbn; repeat split; try lia; try tauto; discriminate);
      (rewrite popup_detect_by_table; cbn [bind];
       destruct response as [r|];
       [ eexists; split; [reflexivity|];
         unfold renderFromContentScript;
         cbn [url_text status_class refresh_hint_hidden setHint setStatus setUrl
              setService];
         split; [apply truncateUrl_length|];
         split; [|discriminate];
         destruct (service r) as [|c s]; [simpl; tauto|];
         destruct (negb (streq (c :: s) (lit "unknown"))); simpl; tauto
       | unfold renderFallback; rewrite popup_detect_by_table; cbn [bind];
         destruct (classify_by_table _) as [[|c k]|];
         (eexists; split; [reflexivity|];
          cbn [url_text status_class refresh_hint_hidden setHint setStatus setUrl
               setService];
          split; [apply truncateUrl_length|];
          split; [simpl; tauto | try discriminate; reflexivity]) ]).
Qed.

End PopupSession.

(** ** From the stream to the popup's copy *)

Section CopyProperties.
Context {P : Platform}.
Import Inject.

Lemma handled_defaulted (c : list Citation) (line : jsstring) :
  Forall citation_defaulted c -> Forall citation_defaulted (handled c line).
Proof.
  intros Hc. unfold handled, handle_line.
  destruct (startsWith line (lit "data:")); [|exact Hc].
  rewrite processDataLine_cases.
  destruct (trim (trim (slice_from line 5))); [exact Hc|].
  destruct (streq _ (lit "[DONE]")); [exact Hc|].
  destruct (JSON_parse _); [now apply extract_defaulted | exact Hc].
Qed.

Lemma collected_defaulted (stream : Stream) (d : TextDecoder)
  (st : Observation) (posted : option value) :
  consumeStream stream d = Normal (st, posted) ->
  Forall citation_defaulted (collected st).
Proof.
  rewrite consumeStream_lines. destruct (split_lines _) as [ls tail].
  destruct (ending stream); [|discriminate]. cbn [settle].
  intros H. injection H as <- _. cbn [collected].
  assert (G : forall c, Forall citation_defaulted c ->
                        Forall citation_defaulted (List.fold_left handled ls c)).
  { induction ls as [|l ls IH]; intros c Hc; [exact Hc|].
    cbn [List.fold_left]. apply IH. now apply handled_defaulted. }
  apply G. constructor.
Qed.

Lemma sink_after_posting (stream : Stream) (before : list value)
  (st : Observation) (posted : option value) :
  consumeStream stream TextDecoder_new = Normal (st, posted) ->
  unique_by_url (collected st) [] <> [] ->
  sink_after_stream stream before
  = List.map citation_object (unique_by_url (collected st) []).
Proof.
  intros Hrun Hne. unfold sink_after_stream. rewrite Hrun.
  assert (Hp : posted = dispatch st).
  { rewrite consumeStream_lines in Hrun. destruct (split_lines _).
    destruct (ending stream); [|discriminate]. cbn [settle] in Hrun.
    now injection Hrun as <- <-. }
  rewrite Hp. unfold dispatch.
  destruct (unique_by_url (collected st) []) as [|c u]; [congruence|].
  reflexivity.
Qed.

Lemma or_empty_of_defaulted (x : value) : defaulted x -> or_empty (Some x) = x.
Proof.
  intros [-> | H]; [reflexivity|]. unfold or_empty. now rewrite H.
Qed.

Lemma copy_of_citation_object (c : Citation) :
  citation_defaulted c ->
  PopupUI.copy_source (citation_object c) = Normal (citation_object c).
Proof.
  intros [Ht Ha]. unfold PopupUI.copy_source, citation_object.
  apply f_equal. cbn [get].
  replace (lookup (lit "url") _) with (Some (JString (url c))) by reflexivity.
  replace (lookup (lit "title") _) with (Some (title c)) by reflexivity.
  replace (lookup (lit "attribution") _) with (Some (attribution c)) by reflexivity.
  rewrite (or_empty_of_defaulted _ Ht), (or_empty_of_defaulted _ Ha).
  replace (or_empty (Some (JString (url c)))) with (JString (url c))
    by (unfold or_empty; simpl; now destruct (url c)).
  reflexivity.
Qed.

Lemma map_sources_citation_objects (l : list Citation) :
  Forall citation_defaulted l ->
  PopupUI.map_sources (List.map citation_object l)
  = Normal (List.map citation_object l).
Proof.
  induction 1 as [|c l Hc _ IH]; [reflexivity|].
  cbn [List.map PopupUI.map_sources].
  rewrite (copy_of_citation_object c Hc). cbn [bind]. rewrite IH. reflexivity.
Qed.

(** X22: the list the popup keeps for Copy JSON is the list the miner
    delivered: after a shadow stream has completed with at least one
    citation, [renderCitations] on the content script's answer to
    [GET_CITATIONS] sets [currentCitations] to that very answer, record for
    record. *)
Theorem popup_copy_is_the_delivered_list (stream : Stream) (before current : list value)
  (st : Observation) (posted : option value) :
  consumeStream stream TextDecoder_new = Normal (st, posted) ->
  unique_by_url (collected st) [] <> [] ->
  PopupUI.renderCitations_currentCitations (lit "chatgpt")
    (ContentScript.GET_CITATIONS (sink_after_stream stream before)) current
  = Normal (List.map citation_object (unique_by_url (collected st) [])).
Proof.
  intros Hrun Hne. unfold ContentScript.GET_CITATIONS.
  rewrite (sink_after_posting stream before st posted Hrun Hne).
  unfold PopupUI.renderCitations_currentCitations.
  replace (streq (lit "chatgpt") (lit "chatgpt")) with true by reflexivity.
  cbn [negb]. apply map_sources_citation_objects.
  pose proof (collected_defaulted stream _ st posted Hrun) as Hall.
  rewrite Forall_forall in *. intros c Hc. apply Hall.
  rewrite unique_by_url_dedup in Hc. now apply dedup_urls_incl.
Qed.

Lemma map_sources_length (l l' : list value) :
  PopupUI.map_sources l = Normal l' -> List.length l' = List.length l.
Proof.
  revert l'. induction l as [|s l IH]; intros l' H; simpl in H.
  - now injection H as <-.
  - destruct (PopupUI.copy_source s) as [o|e]; [|discriminate]. cbn [bind] in H.
    destruct (PopupUI.map_sources l) as [os|e]; [|discriminate]. cbn [bind] in H.
    injection H as <-. simpl. now rewrite (IH os eq_refl).
Qed.

(** X23: [renderCitations] throws on the [sources] it is given exactly when
    one of them is [null]; otherwise it keeps one record per source. For a
    service other than [chatgpt] it leaves [currentCitations] alone. *)
Theorem null_source_breaks_the_copy (sources current : list value) :
  (In JNull sources <->
   PopupUI.renderCitations_currentCitations (lit "chatgpt") sources current
   = Throw TypeError)
  /\ (~ In JNull sources ->
      exists l, PopupUI.renderCitations_currentCitations (lit "chatgpt") sources current
                = Normal l
                /\ List.length l = List.length sources)
  /\ (forall service, streq service (lit "chatgpt") = false ->
        PopupUI.renderCitations_currentCitations service sources current
        = Normal current).
Proof.
  unfold PopupUI.renderCitations_currentCitations.
  replace (streq (lit "chatgpt") (lit "chatgpt")) with true by reflexivity.
  cbn [negb].
  assert (H : (In JNull sources <-> PopupUI.map_sources sources = Throw TypeError)
              /\ (~ In JNull sources -> exists l, PopupUI.map_sources sources = Normal l)).
  { induction sources as [|s l [IH1 IH2]].
    - split; [split; [intros [] | discriminate] | intros _; now exists []].
    - cbn [PopupUI.map_sources In].
      destruct s as [ | b | x | t | elems | props ];
        try (cbn [PopupUI.copy_source bind]; split;
             [ split;
               [ intros [E|H]; [discriminate E|];
                 apply IH1 in H; now rewrite H
               | intros H; right; apply IH1;
                 destruct (PopupUI.map_sources l); [discriminate H | exact H] ]
             | intros Hn;
               destruct IH2 as [l' Hl']; [intros H; apply Hn; now right|];
               rewrite Hl'; eexists; reflexivity ]).
      cbn [PopupUI.copy_source bind]. split;
        [split; [reflexivity | intros _; now left] | intros Hn; elim Hn; now left]. }
  destruct H as [H1 H2]. split; [exact H1|]. split.
  - intros Hn. destruct (H2 Hn) as [l Hl]. exists l. split; [exact Hl|].
    now apply map_sources_length.
  - intros service Hs. now rewrite Hs.
Qed.

End CopyProperties.

Section LineIndependence.
Context {P : Platform}.
Import Inject.

Lemma handled_appends (c : list Citation) (line : jsstring) :
  handled c line = c ++ handled [] line.
Proof.
  unfold handled, handle_line.
  destruct (startsWith line (lit "data:")); [|now rewrite app_nil_r].
  rewrite !processDataLine_cases.
  destruct (trim (trim (slice_from line 5))); [now rewrite app_nil_r|].
  destruct (streq _ (lit "[DONE]")); [now rewrite app_nil_r|].
  destruct (JSON_parse _); [apply extract_app | now rewrite app_nil_r].
Qed.

Lemma fold_handled_flat_map (ls : list jsstring) (c : list Citation) :
  List.fold_left handled ls c = c ++ List.flat_map (handled []) ls.
Proof.
  revert c. induction ls as [|l ls IH]; intros c; simpl.
  - now rewrite app_nil_r.
  - rewrite IH, (handled_appends c l). now rewrite <- app_assoc.
Qed.

(** X24: each line contributes on its own: the citations a closed stream
    ends with are, line after line, what the line would give with nothing
    collected before it; what one line holds never changes what another
    gives, and a line that does not parse takes nothing away. *)
Theorem lines_contribute_independently (cs : list (list byte)) (d : TextDecoder) :
  exists st posted,
    consumeStream (mkStream cs Closed) d = Normal (st, posted)
    /\ lines st = fst (split_lines (snd (decode d (List.concat cs))))
    /\ collected st = List.flat_map (handled []) (lines st).
Proof.
  rewrite consumeStream_lines. unfold body_bytes. cbn [chunks ending].
  destruct (split_lines _) as [ls tail]. cbn [settle fst].
  eexists. eexists. split; [reflexivity|]. cbn [collected lines].
  split; [reflexivity|]. apply (fold_handled_flat_map ls []).
Qed.

End LineIndependence.

(* ===================================================================== *)
(** * The further properties on concrete inputs *)
(* ===================================================================== *)

(** A line that ends in a carriage return. *)
Lemma trailing_white_space_is_ignored_witness :
  Inject.handle_line (P := sample_platform) (items_line ++ [13%N]) []
  = Inject.handle_line (P := sample_platform) items_line [].
Proof.
  exact (trailing_white_space_is_ignored (P := sample_platform)
           items_line 13%N [] eq_refl).
Defined.

(** An original [fetch] that always rejects. *)
Definition failing_fetch (input : FetchInput) (init : option RequestInit)
  : completion Response :=
  Throw (OtherError (lit "NetworkError")).

(** The conversation call rejects: the caller sees the rejection and the
    sink keeps its citation. *)
Lemma upstream_rejection_reaches_caller_witness :
  Inject.returned (Inject.fetch (P := sample_platform) failing_fetch
                     (InputString conversation_url) post_init)
  = Throw (OtherError (lit "NetworkError"))
  /\ Inject.shadow (Inject.fetch (P := sample_platform) failing_fetch
                      (InputString conversation_url) post_init) = None
  /\ page_fetch (P := sample_platform) failing_fetch
       (InputString conversation_url) post_init sink_c
     = (Throw (OtherError (lit "NetworkError")), sink_c).
Proof.
  exact (upstream_rejection_reaches_caller (P := sample_platform) failing_fetch
           (InputString conversation_url) post_init
           (OtherError (lit "NetworkError")) sink_c eq_refl).
Defined.

(** A tab on the conversation page of chatgpt.com. *)
Definition chat_tab : PopupUI.Tab :=
  PopupUI.mkTab (Some 7) (Some (lit "https://chatgpt.com/c/42")).

Definition blank_view : PopupUI.View :=
  PopupUI.mkView (PopupUI.Text []) [] [] [] [] false.

(** No answer from the content script on a chatgpt.com tab: fallback mode. *)
Lemma fallback_mode_iff_known_host_witness :
  exists v,
    PopupUI.init (P := sample_platform) [chat_tab] None blank_view = Normal v
    /\ PopupUI.service_name v = PopupUI.Text (lit "ChatGPT")
    /\ PopupUI.status_class v = lit "status fallback"
    /\ PopupUI.refresh_hint_hidden v = false.
Proof.
  destruct (fallback_mode_iff_known_host (P := sample_platform)
              chat_tab [] 7 blank_view eq_refl
              (fun H => Z.lt_irrefl 0 (eq_ind 7 (Z.lt 0) eq_refl 0 H)))
    as (v & Hv & Hn & _ & Hk & _).
  exists v. split; [exact Hv|]. split; [exact Hn|].
  apply Hk. discriminate.
Defined.

(** The content script of a claude.ai page answers: Claude, detected. *)
Lemma popup_shows_what_the_content_script_found_witness :
  exists v,
    PopupUI.init (P := sample_platform) [chat_tab]
      (service_response (P := sample_platform) (lit "https://claude.ai/chat/1") [])
      blank_view = Normal v
    /\ PopupUI.service_name v = PopupUI.Text (lit "Claude")
    /\ PopupUI.url_title v = lit "https://claude.ai/chat/1"
    /\ PopupUI.status_class v = lit "status detected".
Proof.
  destruct (popup_shows_what_the_content_script_found (P := sample_platform)
              chat_tab [] 7 (lit "https://claude.ai/chat/1") [] blank_view eq_refl
              (fun H => Z.lt_irrefl 0 (eq_ind 7 (Z.lt 0) eq_refl 0 H)))
    as (v & Hv & Hn & _ & Ht & _ & Hk & _).
  exists v. split; [exact Hv|]. split; [exact Hn|]. split; [exact Ht|].
  apply Hk. discriminate.
Defined.

(** The footnote stream completes; the popup's copy is a, b. *)
Lemma popup_copy_is_the_delivered_list_witness :
  PopupUI.renderCitations_currentCitations (lit "chatgpt")
    (ContentScript.GET_CITATIONS
       (sink_after_stream (P := sample_platform) footnote_stream sink_c)) []
  = Normal
      [Inject.citation_object
         (mkCitation (lit "https://a.example") (JString (lit "A")) (JString []));
       Inject.citation_object
         (mkCitation (lit "https://b.example") (JString (lit "B")) (JString []))].
Proof.
  refine (eq_trans
            (popup_copy_is_the_delivered_list (P := sample_platform)
               footnote_stream sink_c []
               (final_state (run footnote_stream))
               (final_message (run footnote_stream)) eq_refl _)
            eq_refl).
  vm_compute. discriminate.
Defined.
